(** * umalator-global/build.mjs: the build script and its development server

  A shallow embedding of [build.mjs]: the esbuild plugins that redirect
  module resolution ([redirectData], [mockAssert], [redirectTable]) and the
  request handler of [runServer], which rebuilds the bundle on demand.

  Conventions.
  - JavaScript strings are [string]s (request paths and import specifiers
    are ASCII); byte buffers are [list Byte.byte].
  - The counters [buildCount], [workerState] and the values of
    [requestCount] are small non-negative integers, modelled as [nat].
  - [requestCount] is a JavaScript [Map] with string keys: a [gmap].
  - The handler is an [async] function.  One run of it is split at its
    only suspension point that matters for the shared state,
    [await output]: the part before it is executed by the [Request] event,
    the part after it when the awaited promise is fulfilled.
  - [node:path], the regular expressions and the bundler's dispatch of
    resolve callbacks are not part of the script; they are modelled after
    their documentation, as far as the script uses them. *)

From Stdlib Require Import Ascii String List Arith Lia.
From stdpp Require Import base option list strings gmap.

Import ListNotations.
Local Open Scope list_scope.

(** ** JavaScript string primitives used by the script *)

Module JsString.

(** [s.startsWith(pre)] *)
Fixpoint startsWith (s pre : string) {struct pre} : bool :=
  match pre with
  | EmptyString => true
  | String a pre' =>
      match s with
      | String b s' => (Ascii.eqb a b && startsWith s' pre')%bool
      | EmptyString => false
      end
  end.

(** [s.slice(n)] for [n >= 0]: the suffix from index [n] (empty past the end). *)
Fixpoint slice (n : nat) (s : string) : string :=
  match n, s with
  | O, _ => s
  | S n', String _ s' => slice n' s'
  | S _, EmptyString => EmptyString
  end.

(** [s.split(sep)] for a non-empty separator: [s] is scanned from the left,
    every occurrence of [sep] closes the current piece and is skipped.
    [skip] counts the characters of a separator still to be skipped and
    [cur] is the piece being read. *)
Fixpoint split_go (sep s : string) (skip : nat) (cur : string) : list string :=
  match s with
  | EmptyString => [cur]
  | String c s' =>
      match skip with
      | S k => split_go sep s' k cur
      | O =>
          if startsWith s sep
          then cur :: split_go sep s' (String.length sep - 1) EmptyString
          else split_go sep s' 0 (cur +:+ String c EmptyString)
      end
  end.

Definition split (sep s : string) : list string := split_go sep s 0 EmptyString.

(** [s.includes(sep)] *)
Fixpoint includes (sep s : string) : bool :=
  (startsWith s sep ||
   match s with
   | EmptyString => false
   | String _ s' => includes sep s'
   end)%bool.

End JsString.

(** ** Regular expressions of the plugin filters

  Only the constructs that occur in the script: literal characters, [.],
  [.*], [$], concatenation and [?].  [rests r s] lists what is left of [s]
  after each way [r] can match a prefix of it, in backtracking order.
  The bundler runs the filters with Go's [regexp] package, not with the
  JavaScript engine: [.] matches every character but a line feed. *)

Module Regex.

Inductive regex : Type :=
| Eps
| Chr (c : ascii)
| Dot
| DotStar
| End
| Cat (r1 r2 : regex)
| Opt (r : regex).

(** [.] matches every character but a line feed (a carriage return is
    matched). *)
Definition line_terminator (c : ascii) : bool := Ascii.eqb c "010".

(** Greedy [.*]: the longest run of non-terminators first. *)
Fixpoint dot_star (s : string) : list string :=
  match s with
  | EmptyString => [s]
  | String c s' => if line_terminator c then [s] else dot_star s' ++ [s]
  end.

Fixpoint rests (r : regex) (s : string) : list string :=
  match r with
  | Eps => [s]
  | Chr c =>
      match s with
      | String c' s' => if Ascii.eqb c c' then [s'] else []
      | EmptyString => []
      end
  | Dot =>
      match s with
      | String c' s' => if line_terminator c' then [] else [s']
      | EmptyString => []
      end
  | DotStar => dot_star s
  | End => match s with EmptyString => [s] | _ => [] end
  | Cat r1 r2 => flat_map (rests r2) (rests r1 s)
  | Opt r' => rests r' s ++ [s]
  end.

Definition matches_at (r : regex) (s : string) : bool :=
  match rests r s with [] => false | _ :: _ => true end.

(** An unanchored pattern is tried at every position. *)
Fixpoint search (r : regex) (s : string) : bool :=
  (matches_at r s ||
   match s with
   | EmptyString => false
   | String _ s' => search r s'
   end)%bool.

(** A run of literal characters. *)
Fixpoint lit (s : string) : regex :=
  match s with
  | EmptyString => Eps
  | String c s' => Cat (Chr c) (lit s')
  end.

(** A filter: a pattern that either starts with [^] or may match anywhere. *)
Record t : Type := { anchored : bool; pattern : regex }.

Definition test (f : t) (s : string) : bool :=
  if anchored f then matches_at (pattern f) s else search (pattern f) s.

(** [new RegExp(src)] for a source made of ordinary characters and [.]. *)
Fixpoint of_source (src : string) : regex :=
  match src with
  | EmptyString => Eps
  | String c s' =>
      Cat (if Ascii.eqb c "." then Dot else Chr c) (of_source s')
  end.

End Regex.

(** ** [node:path] (POSIX flavour) *)

Module Path.

Definition slash : ascii := "/".
Definition dot : ascii := ".".

(** The pieces between slashes. *)
Fixpoint segments_go (s cur : string) : list string :=
  match s with
  | EmptyString => [cur]
  | String c s' =>
      if Ascii.eqb c slash
      then cur :: segments_go s' EmptyString
      else segments_go s' (cur +:+ String c EmptyString)
  end.

Definition segments (s : string) : list string := segments_go s EmptyString.

(** [normalizeString]: empty and [.] segments are dropped, [..] removes the
    segment before it (or stays, for a relative path that climbs out).
    [acc] is the result so far, last segment first. *)
Fixpoint normalize_segments (allowAboveRoot : bool) (segs acc : list string)
  : list string :=
  match segs with
  | [] => rev acc
  | seg :: segs' =>
      if (String.eqb seg "" || String.eqb seg ".")%bool
      then normalize_segments allowAboveRoot segs' acc
      else if String.eqb seg ".."
      then match acc with
           | last :: acc' =>
               if String.eqb last ".."
               then normalize_segments allowAboveRoot segs' (seg :: acc)
               else normalize_segments allowAboveRoot segs' acc'
           | [] =>
               if allowAboveRoot
               then normalize_segments allowAboveRoot segs' [seg]
               else normalize_segments allowAboveRoot segs' []
           end
      else normalize_segments allowAboveRoot segs' (seg :: acc)
  end.

Fixpoint concat_with (sep : string) (l : list string) : string :=
  match l with
  | [] => EmptyString
  | [x] => x
  | x :: l' => x +:+ sep +:+ concat_with sep l'
  end.

Fixpoint ends_with_slash (s : string) : bool :=
  match s with
  | EmptyString => false
  | String c EmptyString => Ascii.eqb c slash
  | String _ s' => ends_with_slash s'
  end.

(** [path.normalize] *)
Definition normalize (p : string) : string :=
  match p with
  | EmptyString => "."
  | String c _ =>
      let isAbsolute := Ascii.eqb c slash in
      let trailingSeparator := ends_with_slash p in
      let body :=
        concat_with "/" (normalize_segments (negb isAbsolute) (segments p) []) in
      match body with
      | EmptyString =>
          if isAbsolute then "/" else if trailingSeparator then "./" else "."
      | _ =>
          let body' := if trailingSeparator then body +:+ "/" else body in
          if isAbsolute then "/" +:+ body' else body'
      end
  end.

(** [path.join(...args)]: the non-empty arguments joined by [/], normalized. *)
Definition join (args : list string) : string :=
  match List.filter (fun a => negb (String.eqb a "")) args with
  | [] => "."
  | parts => normalize (concat_with "/" parts)
  end.

(** Characters of the last segment, read from the end of the path:
    trailing slashes are skipped, then everything up to the next slash. *)
Fixpoint drop_slashes (r : list ascii) : list ascii :=
  match r with
  | c :: r' => if Ascii.eqb c slash then drop_slashes r' else r
  | [] => []
  end.

Fixpoint take_segment (r : list ascii) : list ascii :=
  match r with
  | c :: r' => if Ascii.eqb c slash then [] else c :: take_segment r'
  | [] => []
  end.

(** [path.basename(p)] *)
Definition basename (p : string) : string :=
  string_of_list_ascii
    (rev (take_segment (drop_slashes (rev (list_ascii_of_string p))))).

(** Index of the last [.] of [l], if any. *)
Fixpoint last_dot (l : list ascii) (i : nat) (found : option nat) : option nat :=
  match l with
  | [] => found
  | c :: l' => last_dot l' (S i) (if Ascii.eqb c dot then Some i else found)
  end.

(** [path.extname(p)]: from the last [.] of the last segment, unless that
    dot is the segment's first character or the segment is [..]. *)
Definition extname (p : string) : string :=
  let b := basename p in
  match last_dot (list_ascii_of_string b) 0 None with
  | None => EmptyString
  | Some O => EmptyString
  | Some i => if String.eqb b ".." then EmptyString else JsString.slice i b
  end.

End Path.

(** ** The esbuild plugins *)

Module Plugins.

(** What a resolve callback returns: [{path, namespace}]. *)
Record OnResolveResult : Type :=
  { path : string; namespace : option string }.

(** What the bundler gets for one import specifier: no rule took it, the
    rule that took it threw, or a rewritten path. *)
Inductive resolution : Type :=
| Declined
| Threw
| Resolved (r : OnResolveResult).

(** One [build.onResolve({filter}, callback)] registration.  A callback
    that throws returns [None]. *)
Record OnResolve : Type :=
  { filter : Regex.t; callback : string -> option OnResolveResult }.

(** The bundler runs the registered callbacks in registration order; the
    first one whose filter matches decides (every callback of this script
    returns a path). *)
Fixpoint dispatch (rules : list OnResolve) (specifier : string) : resolution :=
  match rules with
  | [] => Declined
  | rule :: rules' =>
      if Regex.test (filter rule) specifier
      then match callback rule specifier with
           | Some r => Resolved r
           | None => Threw
           end
      else dispatch rules' specifier
  end.

Section Script.

(** The directory of the script and the [--debug] flag. *)
Variable dirname : string.
Variable debug : bool.

(** [/^\.\.?(?:\/uma-skill-tools)?\/data\//] *)
Definition data_filter : Regex.t :=
  {| Regex.anchored := true;
     Regex.pattern :=
       Regex.Cat (Regex.Chr ".")
         (Regex.Cat (Regex.Opt (Regex.Chr "."))
            (Regex.Cat (Regex.Opt (Regex.lit "/uma-skill-tools"))
               (Regex.lit "/data/"))) |}.

(** [args => ({path: path.join(dirname, args.path.split('/data/')[1])})];
    [path.join] throws on an [undefined] argument. *)
Definition data_callback (specifier : string) : option OnResolveResult :=
  match JsString.split "/data/" specifier !! 1%nat with
  | Some rest => Some {| path := Path.join [dirname; rest]; namespace := None |}
  | None => None
  end.

Definition data_files : list string :=
  ["skill_meta.json"; "skill_aliases.json"; "umas.json"; "skill_trigrams.json"].

(** [new RegExp(`${f}`)] with [args => ({path: path.join(dirname, f)})] *)
Definition file_rule (f : string) : OnResolve :=
  {| filter := {| Regex.anchored := false; Regex.pattern := Regex.of_source f |};
     callback := fun _ => Some {| path := Path.join [dirname; f]; namespace := None |} |}.

Definition redirectData : list OnResolve :=
  {| filter := data_filter; callback := data_callback |}
    :: map file_rule data_files.

Definition mockAssertFn : string :=
  if debug then "console.assert" else "function(){}".

(** [/^node:assert$/] *)
Definition assert_filter : Regex.t :=
  {| Regex.anchored := true;
     Regex.pattern := Regex.Cat (Regex.lit "node:assert") Regex.End |}.

Definition mockAssert : list OnResolve :=
  [ {| filter := assert_filter;
       callback := fun p => Some {| path := p; namespace := Some "mockAssert-ns" |} |} ].

(** [build.onLoad({filter: /.*/, namespace: 'mockAssert-ns'}, ...)]: the
    only load callback of the script.  [None]: the module is read from
    disk as usual. *)
Record OnLoadResult : Type := { contents : string; loader : string }.

Definition load_filter : Regex.t :=
  {| Regex.anchored := false; Regex.pattern := Regex.DotStar |}.

Definition onLoad (r : OnResolveResult) : option OnLoadResult :=
  if (bool_decide (namespace r = Some "mockAssert-ns")
      && Regex.test load_filter (path r))%bool
  then Some {| contents := "module.exports={strict:" +:+ mockAssertFn +:+ "};";
               loader := "js" |}
  else None.

(** [/^@tanstack\//] *)
Definition table_filter : Regex.t :=
  {| Regex.anchored := true; Regex.pattern := Regex.lit "@tanstack/" |}.

Definition redirectTable : list OnResolve :=
  [ {| filter := table_filter;
       callback := fun p =>
         Some {| path := Path.join [dirname; ".."; "vendor"; JsString.slice 10 p; "index.ts"];
                 namespace := None |} |} ].

(** [plugins: [redirectData, mockAssert, redirectTable]] *)
Definition plugins : list OnResolve := redirectData ++ mockAssert ++ redirectTable.

Definition resolve (specifier : string) : resolution := dispatch plugins specifier.

End Script.

(** The four ways a specifier can start for [data_filter] to match, up to
    and without the [/data/] that follows. *)
Definition data_prefixes : list string :=
  ["."; ".."; "./uma-skill-tools"; "../uma-skill-tools"].

(** A relative path that climbs [n] directories: [./] for none, [../]
    repeated otherwise. *)
Fixpoint ups (n : nat) : string :=
  match n with
  | O => EmptyString
  | S n' => "../" +:+ ups n'
  end.

Definition climb (n : nat) : string :=
  match n with
  | O => "./"
  | S _ => ups n
  end.

(** The path the exact-filename rule of [f] resolves to. *)
Definition file_target (dirname f : string) : resolution :=
  Resolved {| path := Path.join [dirname; f]; namespace := None |}.

End Plugins.

(** ** The development server, [runServer] *)

Module Server.

Definition THIS_PACKAGE : string := "umalator-global".

Definition ARTIFACTS : list string :=
  ["bundle.js"; "bundle.css"; "simulator.worker.js"].

Definition SOURCEMAP_ARTIFACTS : list string :=
  ["bundle.js.map"; "bundle.css.map"; "simulator.worker.js.map"].

Definition WORKER : string := "simulator.worker.js".

(** The [MIME_TYPES] object, as a partial function of the extension. *)
Definition MIME_TYPES (ext : string) : option string :=
  if String.eqb ext ".html" then Some "text/html; charset=UTF-8"
  else if String.eqb ext ".css" then Some "text/css"
  else if String.eqb ext ".js" then Some "text/javascript"
  else if String.eqb ext ".map" then Some "application/json"
  else if String.eqb ext ".png" then Some "image/png"
  else if String.eqb ext ".jpg" then Some "image/jpeg"
  else if String.eqb ext ".svg" then Some "image/svg+xml"
  else if String.eqb ext ".ico" then Some "image/x-icon"
  else if String.eqb ext ".otf" then Some "font/otf"
  else if String.eqb ext ".ttf" then Some "font/ttf"
  else if String.eqb ext ".woff" then Some "font/woff"
  else None.

(** [ARTIFACTS.indexOf(f) > -1 || SOURCEMAP_ARTIFACTS.indexOf(f) > -1] *)
Definition is_artifact (f : string) : bool :=
  (existsb (String.eqb f) ARTIFACTS || existsb (String.eqb f) SOURCEMAP_ARTIFACTS)%bool.

(** What the server is started with and the file system it serves from:
    [stat p] is [Some isDirectory] when [fs.promises.stat(p)] succeeds, and
    [access p] tells whether [fs.promises.access(p)] succeeds, that is
    whether [p] exists (the call is made without a mode; it does not tell
    whether [p] can be read). *)
Record Env : Type :=
  { subpackage_of : option string;
    root : string;
    stat : string -> option bool;
    access : string -> bool }.

(** The prefix, when it is set and truthy (a non-empty string). *)
Definition prefix_of (env : Env) : option string :=
  match subpackage_of env with
  | Some p => if String.eqb p "" then None else Some p
  | None => None
  end.

(** ** Responses *)

(** - [Redirect]: 302 with a [Location] header;
    - [ArtifactOK]: 200 with [Content-type] and [Content-length], the buffer
      as body;
    - [StaticOK]: the head 200 with [Content-type] is written, then a read
      stream of the file is piped into the response (whether that stream
      delivers the file is not looked at by the script, nor here);
    - [NotFound]: 404;
    - [HandlerThrew]: the handler raised, nothing is written to the response. *)
Inductive response : Type :=
| Redirect (location : string)
| ArtifactOK (content_type : option string) (content_length : nat)
             (body : list Byte.byte)
| StaticOK (content_type : string) (file : string)
| NotFound
| HandlerThrew.

(** ** The state shared by all requests *)

(** The four variables of [runServer] (lines 126-130).  [output] is [null]
    ([None]) or refers to a promise, named by its rank of creation. *)
Record Coordinator : Type :=
  { requestCount : gmap string nat;
    buildCount : nat;
    output : option nat;
    workerState : nat }.

(** A promise created at line 152.  Its executor calls [ctx.rebuild()] at
    once; the promise is fulfilled when that call succeeds.  When the call
    rejects, the executor (an [async] function that was given [resolve]
    only) ends without settling the promise: it stays pending for ever.
    [step] tells what the handlers do; that the process does not outlive a
    rejection nobody handles is told by [Process.execute] below. *)
Inductive promise : Type :=
| InFlight
| Orphaned
| Fulfilled (files : gmap string (list Byte.byte)).

(** A handler suspended at [await output]. *)
Record waiter : Type :=
  { w_req : nat; w_file : string; w_on : nat }.

(** An answered request: its number, the file name it was routed on, the
    promise its body was read from (if any) and the response. *)
Record served : Type :=
  { s_req : nat; s_file : string; s_from : option nat; s_resp : response }.

(** The server: the coordinator, every promise created so far (in creation
    order), the suspended handlers, the answers given and the number of
    requests received. *)
Record State : Type :=
  { coord : Coordinator;
    promises : list promise;
    waiting : list waiter;
    responses : list served;
    requests : nat }.

(** Number of calls of [ctx.rebuild()] so far: one per promise. *)
Definition rebuild_calls (st : State) : nat := length (promises st).

(** A rebuild is running. *)
Definition building (st : State) : bool :=
  existsb (fun p => match p with InFlight => true | _ => false end) (promises st).

Definition init_requestCount : gmap string nat :=
  foldl (fun m f => <[f := 0]> m) ∅ (ARTIFACTS ++ SOURCEMAP_ARTIFACTS).

Definition init : State :=
  {| coord := {| requestCount := init_requestCount; buildCount := 0;
                 output := None; workerState := 0 |};
     promises := []; waiting := []; responses := []; requests := 0 |}.

(** ** Routing (lines 132-142) *)

Inductive route : Type :=
| ToRedirect (location : string)
| ToCoordinator (filename : string)
| ToStatic (url : string).

(** Line 134: the [Location] of the redirect, when the prefix is set and
    the path does not start with [/<prefix>/]. *)
Definition mismatch (env : Env) (url : string) : option string :=
  match prefix_of env with
  | Some p =>
      if negb (JsString.startsWith url ("/" +:+ p +:+ "/"))
      then Some ("/" +:+ p +:+ "/" +:+ THIS_PACKAGE +:+ "/")
      else None
  | None => None
  end.

(** Line 140: [url.slice(subpackage_of ? subpackage_of.length + 1 : 0)] *)
Definition strip_prefix (env : Env) (url : string) : string :=
  match prefix_of env with
  | Some p => JsString.slice (String.length p + 1) url
  | None => url
  end.

Definition classify (env : Env) (url : string) : route :=
  match mismatch env url with
  | Some location => ToRedirect location
  | None =>
      let url' := strip_prefix env url in
      let filename := Path.basename url' in
      if is_artifact filename then ToCoordinator filename else ToStatic url'
  end.

(** ** The coordinator (lines 143-156) *)

(** [+!workerState] *)
Definition toggle (w : nat) : nat := if Nat.eqb w 0 then 1 else 0.

(** [requestCount.get(filename)]; every file name that reaches this line is
    a key of the map (see [requestCount_total]). *)
Definition get (m : gmap string nat) (f : string) : nat := default 0 (m !! f).

(** The value [requestN] of a request for [f]. *)
Definition requestN (c : Coordinator) (f : string) : nat :=
  get (requestCount c) f
  + (if String.eqb f WORKER then toggle (workerState c) else 1).

(** The rebuild is triggered. *)
Definition triggers (c : Coordinator) (f : string) : bool :=
  negb (Nat.eqb (requestN c f) (buildCount c)).

(** The state after lines 143-156; [fresh] is the promise created at line
    152 if the rebuild is triggered. *)
Definition demand (c : Coordinator) (f : string) (fresh : nat) : Coordinator :=
  let n := requestN c f in
  let w := if String.eqb f WORKER then toggle (workerState c) else workerState c in
  let rc := <[f := n]> (requestCount c) in
  if triggers c f
  then {| requestCount := rc; buildCount := buildCount c + 1;
          output := Some fresh; workerState := w |}
  else {| requestCount := rc; buildCount := buildCount c;
          output := output c; workerState := w |}.

(** ** Responses to artifact requests (lines 158-162) *)

(** [(await output).get(filename)], then the 200 response; reading
    [artifact.length] of a missing entry raises. *)
Definition artifact_response (files : gmap string (list Byte.byte)) (f : string)
  : response :=
  match files !! f with
  | Some buf => ArtifactOK (MIME_TYPES (Path.extname f)) (length buf) buf
  | None => HandlerThrew
  end.

(** ** Static files (lines 164-187) *)

Definition serve_static (env : Env) (url : string) : response :=
  let fp := Path.join [root env; url] in
  let fpOrIndexHtml :=
    match stat env fp with
    | Some true => Path.join [fp; "index.html"]
    | Some false => fp
    | None => fp
    end in
  if access env fpOrIndexHtml
  then StaticOK (default "application/octet-stream"
                   (MIME_TYPES (Path.extname fpOrIndexHtml))) fpOrIndexHtml
  else NotFound.

(** ** Events of the event loop *)

(** - [Request url]: a request arrives and its handler runs up to its
      first suspension;
    - [RebuildResolved h outputFiles]: the [ctx.rebuild()] called for
      promise [h] succeeds with these output files (path, contents);
    - [RebuildRejected h]: the [ctx.rebuild()] called for promise [h] fails. *)
Inductive event : Type :=
| Request (url : string)
| RebuildResolved (h : nat) (outputFiles : list (string * list Byte.byte))
| RebuildRejected (h : nat).

(** [new Map(result.outputFiles.map(o => [path.basename(o.path), o.contents]))]:
    of two entries with one base name the later one stays. *)
Definition output_map (outputFiles : list (string * list Byte.byte))
  : gmap string (list Byte.byte) :=
  foldl (fun m o => <[Path.basename (fst o) := snd o]> m) ∅ outputFiles.

Definition answer (w : waiter) (files : gmap string (list Byte.byte)) : served :=
  {| s_req := w_req w; s_file := w_file w; s_from := Some (w_on w);
     s_resp := artifact_response files (w_file w) |}.

Definition waits_on (h : nat) (w : waiter) : bool := Nat.eqb (w_on w) h.

Definition add_response (st : State) (r : served) : State :=
  {| coord := coord st; promises := promises st; waiting := waiting st;
     responses := responses st ++ [r]; requests := S (requests st) |}.

(** A request for artifact [f] (lines 143-158): the coordinator is updated,
    then the handler awaits [output].  It goes on at once when that promise
    is already fulfilled. *)
Definition artifact_request (st : State) (f : string) : State :=
  let id := requests st in
  let fresh := length (promises st) in
  let c' := demand (coord st) f fresh in
  let ps := if triggers (coord st) f then promises st ++ [InFlight] else promises st in
  match output c' with
  | None =>
      (* [(await null).get] raises *)
      {| coord := c'; promises := ps; waiting := waiting st;
         responses := responses st ++
           [{| s_req := id; s_file := f; s_from := None; s_resp := HandlerThrew |}];
         requests := S id |}
  | Some h =>
      match ps !! h with
      | Some (Fulfilled files) =>
          {| coord := c'; promises := ps; waiting := waiting st;
             responses := responses st ++
               [answer {| w_req := id; w_file := f; w_on := h |} files];
             requests := S id |}
      | _ =>
          {| coord := c'; promises := ps;
             waiting := waiting st ++ [{| w_req := id; w_file := f; w_on := h |}];
             responses := responses st; requests := S id |}
      end
  end.

Definition step (env : Env) (st : State) (e : event) : State :=
  match e with
  | Request url =>
      match classify env url with
      | ToRedirect loc =>
          add_response st {| s_req := requests st; s_file := Path.basename url;
                             s_from := None; s_resp := Redirect loc |}
      | ToCoordinator f => artifact_request st f
      | ToStatic url' =>
          add_response st {| s_req := requests st; s_file := Path.basename url';
                             s_from := None; s_resp := serve_static env url' |}
      end
  | RebuildResolved h outputFiles =>
      match promises st !! h with
      | Some InFlight =>
          let files := output_map outputFiles in
          {| coord := coord st;
             promises := <[h := Fulfilled files]> (promises st);
             waiting := List.filter (fun w => negb (waits_on h w)) (waiting st);
             responses := responses st ++
               map (fun w => answer w files) (List.filter (waits_on h) (waiting st));
             requests := requests st |}
      | _ => st
      end
  | RebuildRejected h =>
      match promises st !! h with
      | Some InFlight =>
          {| coord := coord st;
             promises := <[h := Orphaned]> (promises st);
             waiting := waiting st; responses := responses st;
             requests := requests st |}
      | _ => st
      end
  end.

Definition run (env : Env) (st : State) (evs : list event) : State :=
  foldl (step env) st evs.

(** ** Notions used to state properties of the server *)

(** The names the router hands to the coordinator. *)
Definition artifact_names : list string := ARTIFACTS ++ SOURCEMAP_ARTIFACTS.

(** The largest per-artifact request counter. *)
Definition max_requestCount (c : Coordinator) : nat :=
  max_list (map (get (requestCount c)) artifact_names).

Definition is_artifact_request (env : Env) (e : event) : bool :=
  match e with
  | Request url =>
      match classify env url with ToCoordinator _ => true | _ => false end
  | _ => false
  end.

(** Number of requests of a trace that were routed to the coordinator. *)
Definition artifact_requests (env : Env) (evs : list event) : nat :=
  length (List.filter (is_artifact_request env) evs).

(** Request [id] reads its body from promise [h]: it is suspended on it or
    has been answered from it. *)
Definition attached (st : State) (id h : nat) : Prop :=
  (exists w, In w (waiting st) /\ w_req w = id /\ w_on w = h)
  \/ (exists r, In r (responses st) /\ s_req r = id /\ s_from r = Some h).

(** Request [id] has been answered. *)
Definition answered (st : State) (id : nat) : Prop :=
  exists r, In r (responses st) /\ s_req r = id.

(** The promise [output] refers to: the one created last. *)
Definition latest (ps : list promise) : option nat :=
  match ps with
  | [] => None
  | _ :: _ => Some (length ps - 1)
  end.

(** What holds in every state of a run (see [run_invariant]). *)
Record invariant (st : State) : Prop :=
  { inv_count : buildCount (coord st) = length (promises st);
    inv_output : output (coord st) = latest (promises st);
    inv_worker :
      workerState (coord st) = 0
      \/ (workerState (coord st) = 1 /\ 1 <= get (requestCount (coord st)) WORKER);
    inv_keys :
      forall f, In f artifact_names -> is_Some (requestCount (coord st) !! f);
    inv_waiting :
      forall w, In w (waiting st) ->
        promises st !! w_on w = Some InFlight \/ promises st !! w_on w = Some Orphaned;
    inv_served :
      forall r h, In r (responses st) -> s_from r = Some h ->
        exists files, promises st !! h = Some (Fulfilled files)
                      /\ s_resp r = artifact_response files (s_file r);
    inv_waiting_ids : forall w, In w (waiting st) -> w_req w < requests st;
    inv_served_ids : forall r, In r (responses st) -> s_req r < requests st;
    inv_waiting_nodup : List.NoDup (map w_req (waiting st));
    inv_unanswered :
      forall w r, In w (waiting st) -> In r (responses st) -> s_req r <> w_req w }.

(** What a request for an artifact does to the suspended and the answered
    requests: it is answered at once from a fulfilled promise, suspended on
    an unsettled one, or fails when there is no promise. *)
Inductive request_outcome (st : State) (f : string) (st' : State) : Prop :=
| outcome_answered h files :
    output (coord st') = Some h ->
    promises st' !! h = Some (Fulfilled files) ->
    waiting st' = waiting st ->
    responses st' = responses st
      ++ [answer {| w_req := requests st; w_file := f; w_on := h |} files] ->
    request_outcome st f st'
| outcome_suspended h :
    output (coord st') = Some h ->
    (forall files, promises st' !! h <> Some (Fulfilled files)) ->
    waiting st' = waiting st ++ [{| w_req := requests st; w_file := f; w_on := h |}] ->
    responses st' = responses st ->
    request_outcome st f st'
| outcome_threw :
    output (coord st') = None ->
    waiting st' = waiting st ->
    responses st' = responses st
      ++ [{| s_req := requests st; s_file := f; s_from := None; s_resp := HandlerThrew |}] ->
    request_outcome st f st'.


Definition is_request (e : event) : bool :=
  match e with Request _ => true | _ => false end.

Definition count_requests (evs : list event) : nat :=
  length (List.filter is_request evs).

(** A server behind the default prefix, with nothing on disk. *)
Definition example_env : Env :=
  {| subpackage_of := Some "uma-tools"; root := "/repo";
     stat := fun _ => None; access := fun _ => false |}.

Definition get_js : event := Request "/uma-tools/umalator-global/bundle.js".
Definition get_css : event := Request "/uma-tools/umalator-global/bundle.css".
Definition get_worker : event :=
  Request "/uma-tools/umalator-global/simulator.worker.js".

End Server.

(** ** The command line and the build options (lines 9-31, 59, 82-96, 192-200) *)

Module Build.

(** What was typed: [--debug]; [--serve] absent, without a port or with one;
    [--host]; [--subpackage_of]. *)
Record CommandLine : Type :=
  { arg_debug : bool;
    arg_serve : option (option string);
    arg_host : option string;
    arg_subpackage_of : option string }.

(** [program.opts()].  [--serve] without a port takes the preset 8000, and an
    option [--serve] that is set implies [debug: true]; [--host] and
    [--subpackage_of] have defaults.  [opt_debug] is [!!options.debug] and
    the port is kept as the text it is printed as. *)
Record Options : Type :=
  { opt_debug : bool;
    opt_serve : option string;
    opt_host : string;
    opt_subpackage_of : string }.

Definition parse (a : CommandLine) : Options :=
  {| opt_debug :=
       (arg_debug a || match arg_serve a with Some _ => true | None => false end)%bool;
     opt_serve :=
       match arg_serve a with
       | None => None
       | Some None => Some "8000"
       | Some (Some port) => Some port
       end;
     opt_host := default "0.0.0.0" (arg_host a);
     opt_subpackage_of := default "uma-tools" (arg_subpackage_of a) |}.

(** [const serve = port != null] *)
Definition serve (o : Options) : bool :=
  match opt_serve o with Some _ => true | None => false end.

(** The fields of [buildOptions] that depend on the options, the plugins and
    the constant ones. *)
Record BuildOptions : Type :=
  { entryPoints : list (string * option string);
    bundle : bool;
    minify : bool;
    sourcemap : string;
    outdir : string;
    write : bool;
    define : list (string * string);
    external : list string;
    plugins : list Plugins.OnResolve;
    absWorkingDir : string }.

Definition buildOptions (dirname root : string) (o : Options) : BuildOptions :=
  {| entryPoints := [("../umalator/app.tsx", Some "bundle");
                     ("../umalator/simulator.worker.ts", None)];
     bundle := true;
     minify := negb (opt_debug o);
     sourcemap := if opt_debug o then "linked" else "external";
     outdir := ".";
     write := negb (serve o);
     define := [("CC_DEBUG", if opt_debug o then "true" else "false");
                ("CC_GLOBAL", "true")];
     external := ["*.ttf"];
     plugins := Plugins.plugins dirname;
     absWorkingDir := Path.join [root; "umalator-global"] |}.

(** Lines 192-200: serve, or build once. *)
Inductive action : Type :=
| RunServer (port host : string) (subpackage_of : string)
| BuildOnce.

Definition main (o : Options) : action :=
  match opt_serve o with
  | Some port => RunServer port (opt_host o) (opt_subpackage_of o)
  | None => BuildOnce
  end.

End Build.

(** ** Further notions about runs of the server *)

Module Traces.

Import Server.

(** The request is routed to the coordinator as a request for [f]. *)
Definition is_request_for (env : Env) (f : string) (e : event) : bool :=
  match e with
  | Request url =>
      match classify env url with
      | ToCoordinator g => String.eqb g f
      | _ => false
      end
  | _ => false
  end.

(** Number of requests for artifact [f] in a trace. *)
Definition requests_for (env : Env) (f : string) (evs : list event) : nat :=
  length (List.filter (is_request_for env f) evs).

(** The numbers of the requests that are suspended or answered. *)
Definition request_ids (st : State) : list nat :=
  map w_req (waiting st) ++ map s_req (responses st).

(** The response was read from a promise: the handler went past
    [await output]. *)
Definition from_promise (r : served) : bool :=
  match s_from r with Some _ => true | None => false end.

(** The numbers of the artifact requests: those suspended at [await output]
    and those whose handler went past it. *)
Definition artifact_ids (st : State) : list nat :=
  map w_req (waiting st) ++ map s_req (List.filter from_promise (responses st)).

(** What a browser fetches for one page: the bundle, the stylesheet and the
    worker script twice. *)
Definition page_load (js css worker : string) : list event :=
  [Request js; Request css; Request worker; Request worker].

(** The three counters of a page load agree with [buildCount] and no
    worker pair is half-way. *)
Definition in_step (c : Coordinator) (k : nat) : Prop :=
  requestCount c !! "bundle.js" = Some k
  /\ requestCount c !! "bundle.css" = Some k
  /\ requestCount c !! WORKER = Some k
  /\ buildCount c = k
  /\ workerState c = 0.

(** No character of [s] is a slash. *)
Definition no_slash (s : string) : bool :=
  forallb (fun c => negb (Ascii.eqb c Path.slash)) (list_ascii_of_string s).

(** No character of [s] is a line terminator. *)
Definition one_line (s : string) : bool :=
  forallb (fun c => negb (Regex.line_terminator c)) (list_ascii_of_string s).

End Traces.

(** ** The process

    The script handles a rejection nowhere: it has no [catch], gives the
    executor of line 152 no [reject] and installs no handler for unhandled
    rejections.  Node ends the process at the first rejection nobody
    handles. *)

Module Process.

Import Server.

(** The rebuild called for an in-flight promise fails: the promise of the
    [async] executor is rejected, and nothing handles it. *)
Definition unhandled_rejection (st : State) (e : event) : bool :=
  match e with
  | RebuildRejected h =>
      match promises st !! h with
      | Some InFlight => true
      | _ => false
      end
  | _ => false
  end.

(** The events the process lives to see: [execute] stops at the first
    unhandled rejection and ignores what comes after it.  The result is the
    last state and whether the process has ended. *)
Fixpoint execute (env : Env) (st : State) (evs : list event) : State * bool :=
  match evs with
  | [] => (st, false)
  | e :: evs' =>
      if unhandled_rejection st e then (step env st e, true)
      else execute env (step env st e) evs'
  end.

End Process.

(** * Sanity checks of the model on concrete inputs *)

Module Checks.

Import Server.

Example split_data_twice :
  JsString.split "/data/" "../data/x/data/y" = [".."; "x"; "y"].
Proof. vm_compute. reflexivity. Qed.

Example join_vendor :
  Path.join ["/repo/umalator-global"; ".."; "vendor"; "react-table"; "index.ts"]
  = "/repo/vendor/react-table/index.ts".
Proof. vm_compute. reflexivity. Qed.

Example join_root_url :
  Path.join ["/repo"; "/umalator-global/"] = "/repo/umalator-global/".
Proof. vm_compute. reflexivity. Qed.

Example basename_artifact :
  Path.basename "/umalator-global/bundle.js" = "bundle.js"
  /\ Path.basename "/umalator-global/" = "umalator-global"
  /\ Path.basename "/" = "".
Proof. vm_compute. auto. Qed.

Example extname_cases :
  Path.extname "simulator.worker.js.map" = ".map"
  /\ Path.extname "/a/.bashrc" = ""
  /\ Path.extname "/a/index.html" = ".html"
  /\ Path.extname "/a/.." = "".
Proof. vm_compute. auto. Qed.

Example resolve_tanstack :
  Plugins.resolve "/repo/umalator-global" "@tanstack/react-table"
  = Plugins.Resolved {| Plugins.path := "/repo/vendor/react-table/index.ts";
                        Plugins.namespace := None |}.
Proof. vm_compute. reflexivity. Qed.

Example resolve_plain : Plugins.resolve "/repo/umalator-global" "react" = Plugins.Declined.
Proof. vm_compute. reflexivity. Qed.

Example classify_cases :
  classify example_env "/uma-tools/umalator-global/bundle.js" = ToCoordinator "bundle.js"
  /\ classify example_env "/uma-tools/umalator-global/index.html"
     = ToStatic "/umalator-global/index.html"
  /\ classify example_env "/favicon.ico" = ToRedirect "/uma-tools/umalator-global/".
Proof. vm_compute. auto. Qed.

(** Two page loads, each fetching the bundle, the stylesheet and the worker
    script twice: one rebuild per load. *)
Example two_page_loads :
  rebuild_calls
    (run example_env init
       [get_js; get_css; get_worker; get_worker;
        get_js; get_css; get_worker; get_worker]) = 2.
Proof. vm_compute. reflexivity. Qed.

End Checks.

(** Splits conjunctions only, so that no equation is attacked by
    unification before it is evaluated. *)
Ltac conj_split := match goal with |- _ /\ _ => split end.

(** Closes a closed equation by evaluating both sides. *)
Ltac by_evaluation := match goal with |- _ = _ => vm_compute; reflexivity end.

(** * Properties of the request router *)

Module RouterFacts.

Import Server.

Lemma startsWith_length (s pre : string) :
  JsString.startsWith s pre = true -> String.length pre <= String.length s.
Proof.
  revert s; induction pre as [|c pre IH]; intros [|d s]; simpl; try lia; try discriminate.
  intros H. apply andb_true_iff in H as [_ H]. apply IH in H. lia.
Qed.

Lemma length_append (a b : string) :
  String.length (a +:+ b) = String.length a + String.length b.
Proof. induction a as [|c a IH]; simpl; [reflexivity | now rewrite IH]. Qed.

Lemma short_path_mismatch (p url : string) :
  String.length url < String.length p ->
  JsString.startsWith url ("/" +:+ p +:+ "/") = false.
Proof.
  intros Hlen.
  destruct (JsString.startsWith url _) eqn:E; [|reflexivity].
  apply startsWith_length in E. rewrite !length_append in E. simpl in E. lia.
Qed.

Lemma bare_prefix_mismatch (p : string) :
  JsString.startsWith ("/" +:+ p) ("/" +:+ p +:+ "/") = false.
Proof.
  destruct (JsString.startsWith _ _) eqn:E; [|reflexivity].
  apply startsWith_length in E. rewrite !length_append in E. simpl in E. lia.
Qed.

Lemma mismatch_spec env p url :
  prefix_of env = Some p ->
  mismatch env url =
    if JsString.startsWith url ("/" +:+ p +:+ "/") then None
    else Some ("/" +:+ p +:+ "/umalator-global/").
Proof.
  intros Hp. unfold mismatch. rewrite Hp.
  destruct (JsString.startsWith _ _); reflexivity.
Qed.

Lemma redirect_frame st r :
  coord (add_response st r) = coord st
  /\ promises (add_response st r) = promises st
  /\ waiting (add_response st r) = waiting st.
Proof. repeat split. Qed.

Lemma redirect_step env p st url :
  prefix_of env = Some p ->
  JsString.startsWith url ("/" +:+ p +:+ "/") = false ->
  step env st (Request url) =
    add_response st
      {| s_req := requests st; s_file := Path.basename url; s_from := None;
         s_resp := Redirect ("/" +:+ p +:+ "/umalator-global/") |}.
Proof.
  intros Hp Hs. simpl. unfold classify.
  rewrite (mismatch_spec env p url Hp), Hs. reflexivity.
Qed.

(** C7.  A request whose path does not start with [/<prefix>/] (in
    particular a path shorter than the prefix) is answered 302 with
    [Location: /<prefix>/umalator-global/]: exactly that response is added to
    the responses, and neither the coordinator nor the rebuild promises nor
    the suspended requests change. *)
Theorem prefix_mismatch_redirects env p st url :
  prefix_of env = Some p ->
  JsString.startsWith url ("/" +:+ p +:+ "/") = false
  \/ String.length url < String.length p ->
  step env st (Request url) =
    add_response st
      {| s_req := requests st; s_file := Path.basename url; s_from := None;
         s_resp := Redirect ("/" +:+ p +:+ "/umalator-global/") |}
  /\ responses (step env st (Request url))
     = responses st
       ++ [{| s_req := requests st; s_file := Path.basename url; s_from := None;
              s_resp := Redirect ("/" +:+ p +:+ "/umalator-global/") |}]
  /\ coord (step env st (Request url)) = coord st
  /\ promises (step env st (Request url)) = promises st
  /\ waiting (step env st (Request url)) = waiting st.
Proof.
  intros Hp Hmis.
  assert (Hs : JsString.startsWith url ("/" +:+ p +:+ "/") = false).
  { destruct Hmis as [H|H]; [exact H | now apply short_path_mismatch]. }
  rewrite (redirect_step env p st url Hp Hs).
  split; [reflexivity|]. split; [reflexivity | apply redirect_frame].
Qed.

Lemma prefix_mismatch_redirects_witness :
  step example_env init (Request "/other/index.html") =
    add_response init
      {| s_req := 0; s_file := "index.html"; s_from := None;
         s_resp := Redirect "/uma-tools/umalator-global/" |}
  /\ responses (step example_env init (Request "/other/index.html"))
     = [{| s_req := 0; s_file := "index.html"; s_from := None;
           s_resp := Redirect "/uma-tools/umalator-global/" |}]
  /\ coord (step example_env init (Request "/other/index.html")) = coord init
  /\ promises (step example_env init (Request "/other/index.html")) = promises init
  /\ waiting (step example_env init (Request "/other/index.html")) = waiting init.
Proof.
  apply (prefix_mismatch_redirects example_env "uma-tools" init "/other/index.html").
  - reflexivity.
  - left. reflexivity.
Defined.

Lemma snoc_not_self {A} (l : list A) (x : A) : l <> l ++ [x].
Proof.
  intros H. apply (f_equal (@length A)) in H. rewrite length_app in H. simpl in H. lia.
Qed.

(** A request that passes the prefix test adds no 302 to the responses. *)
Lemma passed_request_not_redirected env p st url r location :
  prefix_of env = Some p ->
  JsString.startsWith url ("/" +:+ p +:+ "/") = true ->
  responses (step env st (Request url)) = responses st ++ [r] ->
  s_resp r <> Redirect location.
Proof.
  intros Hp Hs. simpl. unfold classify. rewrite (mismatch_spec env p url Hp), Hs.
  cbv zeta. destruct (is_artifact _).
  - unfold artifact_request. cbv zeta.
    destruct (output _) as [h|]; [destruct (_ !! h) as [[| |files]|]|]; simpl; intros H.
    + now apply snoc_not_self in H.
    + now apply snoc_not_self in H.
    + apply app_inj_tail in H as [_ <-]. simpl. unfold artifact_response.
      destruct (files !! _); discriminate.
    + now apply snoc_not_self in H.
    + apply app_inj_tail in H as [_ <-]. discriminate.
  - simpl. intros H. apply app_inj_tail in H as [_ <-]. simpl.
    unfold serve_static. cbv zeta. destruct (access env _); discriminate.
Qed.

(** C10.  With a prefix configured, the path [/<prefix>] without a
    trailing slash is answered with a 302 to [/<prefix>/umalator-global/],
    which is added to the responses while the coordinator stays as it is;
    and a request is answered with a 302 exactly when its path does not start
    with [/<prefix>/]. *)
Theorem bare_prefix_redirects env p st :
  prefix_of env = Some p ->
  step env st (Request ("/" +:+ p)) =
    add_response st
      {| s_req := requests st; s_file := Path.basename ("/" +:+ p); s_from := None;
         s_resp := Redirect ("/" +:+ p +:+ "/umalator-global/") |}
  /\ responses (step env st (Request ("/" +:+ p)))
     = responses st
       ++ [{| s_req := requests st; s_file := Path.basename ("/" +:+ p);
              s_from := None;
              s_resp := Redirect ("/" +:+ p +:+ "/umalator-global/") |}]
  /\ coord (step env st (Request ("/" +:+ p))) = coord st
  /\ (forall url,
        (exists location, classify env url = ToRedirect location)
        <-> JsString.startsWith url ("/" +:+ p +:+ "/") = false)
  /\ (forall url,
        (exists r location,
            responses (step env st (Request url)) = responses st ++ [r]
            /\ s_resp r = Redirect location)
        <-> JsString.startsWith url ("/" +:+ p +:+ "/") = false).
Proof.
  intros Hp.
  rewrite (redirect_step env p st _ Hp (bare_prefix_mismatch p)).
  split; [reflexivity|]. split; [reflexivity|]. split; [reflexivity|]. split.
  - intros url. unfold classify. rewrite (mismatch_spec env p url Hp).
    destruct (JsString.startsWith url _); split.
    + intros [loc H]. destruct (is_artifact _); discriminate.
    + discriminate.
    + reflexivity.
    + intros _. eexists. reflexivity.
  - intros url. destruct (JsString.startsWith url ("/" +:+ p +:+ "/")) eqn:Hs; split.
    + intros (r & loc & Hr & Hresp).
      now elim (passed_request_not_redirected env p st url r loc Hp Hs Hr).
    + discriminate.
    + reflexivity.
    + intros _. rewrite (redirect_step env p st url Hp Hs).
      eexists. eexists. split; reflexivity.
Qed.

Lemma bare_prefix_redirects_witness :
  step example_env init (Request "/uma-tools") =
    add_response init
      {| s_req := 0; s_file := "uma-tools"; s_from := None;
         s_resp := Redirect "/uma-tools/umalator-global/" |}
  /\ responses (step example_env init (Request "/uma-tools"))
     = [{| s_req := 0; s_file := "uma-tools"; s_from := None;
           s_resp := Redirect "/uma-tools/umalator-global/" |}]
  /\ coord (step example_env init (Request "/uma-tools")) = coord init
  /\ (forall url,
        (exists location, classify example_env url = ToRedirect location)
        <-> JsString.startsWith url "/uma-tools/" = false)
  /\ (forall url,
        (exists r location,
            responses (step example_env init (Request url)) = responses init ++ [r]
            /\ s_resp r = Redirect location)
        <-> JsString.startsWith url "/uma-tools/" = false).
Proof.
  apply (bare_prefix_redirects example_env "uma-tools" init). reflexivity.
Defined.

(** C9.  A request whose final path segment, after the prefix is stripped,
    is not an artifact or source-map name leaves [requestCount],
    [buildCount], [workerState] and [output] as they were; no rebuild is
    started and no suspended request is touched. *)
Theorem passthrough_leaves_coordinator env st url :
  is_artifact (Path.basename (strip_prefix env url)) = false ->
  coord (step env st (Request url)) = coord st
  /\ promises (step env st (Request url)) = promises st
  /\ waiting (step env st (Request url)) = waiting st.
Proof.
  intros Hna. simpl. unfold classify.
  destruct (mismatch env url).
  - apply redirect_frame.
  - cbv zeta. rewrite Hna. apply redirect_frame.
Qed.

Lemma passthrough_leaves_coordinator_witness :
  coord (step example_env (run example_env init [get_js])
           (Request "/uma-tools/umalator-global/index.html"))
    = coord (run example_env init [get_js])
  /\ promises (step example_env (run example_env init [get_js])
                 (Request "/uma-tools/umalator-global/index.html"))
    = promises (run example_env init [get_js])
  /\ waiting (step example_env (run example_env init [get_js])
                (Request "/uma-tools/umalator-global/index.html"))
    = waiting (run example_env init [get_js]).
Proof.
  apply (passthrough_leaves_coordinator example_env
           (run example_env init [get_js])
           "/uma-tools/umalator-global/index.html").
  reflexivity.
Defined.

End RouterFacts.

(** * Properties of the resolution plugins *)

Module PluginsFacts.

Import Plugins.

(** ** Regular expressions *)

Lemma matches_at_true r s :
  Regex.matches_at r s = true <-> exists t, In t (Regex.rests r s).
Proof.
  unfold Regex.matches_at. destruct (Regex.rests r s) as [|t l]; split.
  - discriminate.
  - intros [t []].
  - intros _. exists t. now left.
  - reflexivity.
Qed.

Lemma in_rests_chr c s t :
  In t (Regex.rests (Regex.Chr c) s) <-> s = String c t.
Proof.
  simpl. destruct s as [|c' s']; [split; [intros [] | discriminate]|].
  destruct (Ascii.eqb c c') eqn:E.
  - apply Ascii.eqb_eq in E. subst c'. split.
    + intros [H|[]]. now subst.
    + intros H. injection H as ->. now left.
  - apply Ascii.eqb_neq in E. split; [intros [] | intros H; injection H as -> _; congruence].
Qed.

Lemma in_rests_cat r1 r2 s t :
  In t (Regex.rests (Regex.Cat r1 r2) s)
  <-> exists u, In u (Regex.rests r1 s) /\ In t (Regex.rests r2 u).
Proof. simpl. apply in_flat_map. Qed.

Lemma in_rests_opt r s t :
  In t (Regex.rests (Regex.Opt r) s) <-> In t (Regex.rests r s) \/ t = s.
Proof.
  simpl. rewrite in_app_iff. simpl. intuition congruence.
Qed.

Lemma in_rests_lit l s t :
  In t (Regex.rests (Regex.lit l) s) <-> s = l +:+ t.
Proof.
  revert s; induction l as [|c l IH]; intros s.
  - simpl. intuition congruence.
  - cbn [Regex.lit]. rewrite in_rests_cat. split.
    + intros (u & Hu & Ht). apply in_rests_chr in Hu. apply IH in Ht. now subst.
    + intros ->. exists (l +:+ t). split; [now apply in_rests_chr | now apply IH].
Qed.

Lemma dot_star_nonempty s : Regex.dot_star s <> [].
Proof.
  destruct s as [|c s]; simpl; [discriminate|].
  destruct (Regex.line_terminator c); [discriminate|].
  destruct (Regex.dot_star s); discriminate.
Qed.

Lemma load_filter_accepts p : Regex.test load_filter p = true.
Proof.
  assert (H : Regex.matches_at Regex.DotStar p = true).
  { unfold Regex.matches_at; simpl.
    pose proof (dot_star_nonempty p). destruct (Regex.dot_star p); congruence. }
  unfold Regex.test, load_filter; cbn [Regex.anchored Regex.pattern].
  destruct p; cbn [Regex.search]; rewrite H; reflexivity.
Qed.

(** ** [split] *)

Lemma append_empty_r (s : string) : s +:+ "" = s.
Proof.
  induction s as [|c s IH]; [reflexivity|].
  change (String c (s +:+ "") = String c s). now rewrite IH.
Qed.

Lemma append_assoc (a b c : string) : (a +:+ b) +:+ c = a +:+ (b +:+ c).
Proof.
  induction a as [|x a IH]; [reflexivity|].
  change (String x ((a +:+ b) +:+ c) = String x (a +:+ (b +:+ c))). now rewrite IH.
Qed.

Lemma split_go_cons sep s skip cur :
  exists piece others, JsString.split_go sep s skip cur = piece :: others.
Proof.
  revert skip cur; induction s as [|c s IH]; intros skip cur; cbn [JsString.split_go].
  - eauto.
  - destruct skip as [|k]; [|apply IH].
    destruct (JsString.startsWith (String c s) sep); [eauto | apply IH].
Qed.

Lemma split_go_absent sep s cur :
  JsString.includes sep s = false ->
  JsString.split_go sep s 0 cur = [cur +:+ s].
Proof.
  revert cur; induction s as [|c s IH]; intros cur H.
  - simpl. now rewrite append_empty_r.
  - cbn [JsString.includes] in H. apply orb_false_iff in H as [Hp Hs].
    cbn [JsString.split_go]. rewrite Hp, (IH _ Hs), append_assoc. reflexivity.
Qed.

Lemma split_data pre rest :
  In pre data_prefixes ->
  JsString.split "/data/" (pre +:+ "/data/" +:+ rest)
  = pre :: JsString.split "/data/" rest.
Proof.
  intros H. simpl in H. destruct H as [<-|[<-|[<-|[<-|[]]]]]; reflexivity.
Qed.

(** ** The generic data rule *)

Lemma data_filter_accepts pre rest :
  In pre data_prefixes ->
  Regex.test data_filter (pre +:+ "/data/" +:+ rest) = true.
Proof.
  intros H. repeat (destruct H as [<-|H]; [reflexivity|]). destruct H.
Qed.

Lemma data_filter_inv spec :
  Regex.test data_filter spec = true ->
  exists pre rest, In pre data_prefixes /\ spec = pre +:+ "/data/" +:+ rest.
Proof.
  unfold Regex.test, data_filter; cbn [Regex.anchored Regex.pattern].
  intros H. apply matches_at_true in H as [t H].
  apply in_rests_cat in H as (u1 & H1 & H).
  apply in_rests_cat in H as (u2 & H2 & H).
  apply in_rests_cat in H as (u3 & H3 & H).
  apply in_rests_chr in H1. apply in_rests_lit in H.
  apply in_rests_opt in H2. apply in_rests_opt in H3.
  destruct H2 as [H2|H2], H3 as [H3|H3];
    try apply in_rests_chr in H2; try apply in_rests_lit in H3; subst.
  - exists "../uma-skill-tools", t. split; [simpl; tauto | reflexivity].
  - exists "..", t. split; [simpl; tauto | reflexivity].
  - exists "./uma-skill-tools", t. split; [simpl; tauto | reflexivity].
  - exists ".", t. split; [simpl; tauto | reflexivity].
Qed.

Lemma dispatch_data dirname spec :
  Regex.test data_filter spec = true ->
  resolve dirname spec =
    match JsString.split "/data/" spec !! 1%nat with
    | Some piece => Resolved {| path := Path.join [dirname; piece]; namespace := None |}
    | None => Threw
    end.
Proof.
  intros H. unfold resolve, plugins, redirectData.
  cbn [app dispatch filter callback]. rewrite H. unfold data_callback.
  destruct (_ !! 1%nat); reflexivity.
Qed.

Lemma dispatch_files dirname rules spec f :
  find (fun g => Regex.test (filter (file_rule dirname g)) spec) data_files = Some f ->
  dispatch (map (file_rule dirname) data_files ++ rules) spec = file_target dirname f.
Proof.
  generalize data_files. intros l; induction l as [|g l IH]; simpl; [discriminate|].
  destruct (Regex.test _ spec); [intros [= ->]; reflexivity | exact IH].
Qed.

Lemma resolve_data dirname pre rest :
  In pre data_prefixes ->
  exists file others,
    JsString.split "/data/" rest = file :: others
    /\ JsString.split "/data/" (pre +:+ "/data/" +:+ rest) !! 1%nat = Some file
    /\ resolve dirname (pre +:+ "/data/" +:+ rest) = file_target dirname file.
Proof.
  intros Hpre.
  destruct (split_go_cons "/data/" rest 0 "") as (file & others & Hsplit).
  exists file, others. fold (JsString.split "/data/" rest) in Hsplit.
  assert (H1 : JsString.split "/data/" (pre +:+ "/data/" +:+ rest) !! 1%nat = Some file).
  { rewrite (split_data pre rest Hpre), Hsplit. reflexivity. }
  repeat split; [exact Hsplit | exact H1 |].
  rewrite (dispatch_data dirname _ (data_filter_accepts pre rest Hpre)), H1.
  reflexivity.
Qed.




(** C6, as the script has it.  A specifier that starts with [./data/],
    [../data/], [./uma-skill-tools/data/] or [../uma-skill-tools/data/] is
    rewritten to the file under [dirname] named by what follows that
    [/data/] (the whole remainder when it holds no further [/data/]); the
    generic pattern matches no other specifier. *)
Theorem data_rule_rewrites dirname pre rest :
  In pre data_prefixes ->
  (exists file others,
      JsString.split "/data/" rest = file :: others
      /\ resolve dirname (pre +:+ "/data/" +:+ rest) = file_target dirname file
      /\ (JsString.includes "/data/" rest = false -> file = rest))
  /\ (forall spec,
        Regex.test data_filter spec = true
        <-> exists pre' rest', In pre' data_prefixes /\ spec = pre' +:+ "/data/" +:+ rest').
Proof.
  intros Hpre. split.
  - destruct (resolve_data dirname pre rest Hpre) as (file & others & Hs & _ & Hr).
    exists file, others. repeat split; [exact Hs | exact Hr |].
    intros Hno. unfold JsString.split in Hs.
    rewrite (split_go_absent _ _ _ Hno) in Hs. now injection Hs as <-.
  - intros spec. split; [apply data_filter_inv|].
    intros (pre' & rest' & H & ->). now apply data_filter_accepts.
Qed.

Lemma data_rule_rewrites_witness :
  (exists file others,
      JsString.split "/data/" "course_data.json" = file :: others
      /\ resolve "/repo/umalator-global" (".." +:+ "/data/" +:+ "course_data.json")
         = file_target "/repo/umalator-global" file
      /\ (JsString.includes "/data/" "course_data.json" = false
          -> file = "course_data.json"))
  /\ (forall spec,
        Regex.test data_filter spec = true
        <-> exists pre' rest', In pre' data_prefixes /\ spec = pre' +:+ "/data/" +:+ rest').
Proof.
  apply (data_rule_rewrites "/repo/umalator-global" ".." "course_data.json").
  simpl. tauto.
Defined.

(** C6 as stated fails: a specifier that climbs two directories before the
    data directory is matched by no rule and is left to the bundler. *)
Lemma deep_data_import_counterexample :
  resolve "/repo/umalator-global" "../../data/course_data.json" = Declined
  /\ ~ (forall dirname levels file,
          JsString.includes "/data/" file = false ->
          resolve dirname (climb levels +:+ "data/" +:+ file) = file_target dirname file).
Proof.
  split; [by_evaluation|].
  intros H. specialize (H "/repo/umalator-global" 2 "course_data.json" eq_refl).
  vm_compute in H. discriminate H.
Qed.

(** C8.  Every import of [node:assert] is resolved into the namespace
    [mockAssert-ns], and every module of that namespace is loaded as a stub
    whose [strict] export is [console.assert] when [debug] is on and the
    empty function [function(){}] when it is off. *)
Theorem assert_module_is_stubbed dirname debug :
  resolve dirname "node:assert"
  = Resolved {| path := "node:assert"; namespace := Some "mockAssert-ns" |}
  /\ (forall p,
        onLoad debug {| path := p; namespace := Some "mockAssert-ns" |}
        = Some {| contents :=
                    if debug then "module.exports={strict:console.assert};"
                    else "module.exports={strict:function(){}};";
                  loader := "js" |})
  /\ mockAssertFn debug = if debug then "console.assert" else "function(){}".
Proof.
  repeat split.
  intros p. unfold onLoad. cbn [namespace path].
  rewrite load_filter_accepts.
  destruct debug; reflexivity.
Qed.

End PluginsFacts.

(** * Properties of the rebuild coordinator *)

Module ServerFacts.

Import Server.

(** ** Runs *)

Lemma run_app env st evs1 evs2 :
  run env st (evs1 ++ evs2) = run env (run env st evs1) evs2.
Proof. revert st; induction evs1 as [|e evs1 IH]; intros st; simpl; [reflexivity | apply IH]. Qed.

Lemma run_snoc env st evs e :
  run env st (evs ++ [e]) = step env (run env st evs) e.
Proof. now rewrite run_app. Qed.

(** ** One request for an artifact, field by field *)

Lemma demand_requestCount c f fresh :
  requestCount (demand c f fresh) = <[f := requestN c f]> (requestCount c).
Proof. unfold demand. destruct (triggers c f); reflexivity. Qed.

Lemma demand_buildCount c f fresh :
  buildCount (demand c f fresh) = buildCount c + (if triggers c f then 1 else 0).
Proof. unfold demand. destruct (triggers c f); simpl; lia. Qed.

Lemma demand_output c f fresh :
  output (demand c f fresh) = if triggers c f then Some fresh else output c.
Proof. unfold demand. destruct (triggers c f); reflexivity. Qed.

Lemma demand_workerState c f fresh :
  workerState (demand c f fresh)
  = if String.eqb f WORKER then toggle (workerState c) else workerState c.
Proof. unfold demand. destruct (triggers c f); reflexivity. Qed.

Lemma artifact_request_coord st f :
  coord (artifact_request st f) = demand (coord st) f (length (promises st)).
Proof.
  unfold artifact_request; cbv zeta.
  destruct (output _); [destruct (_ !! _) as [[]|]|]; reflexivity.
Qed.

Lemma artifact_request_promises st f :
  promises (artifact_request st f)
  = if triggers (coord st) f then promises st ++ [InFlight] else promises st.
Proof.
  unfold artifact_request; cbv zeta.
  destruct (output _); [destruct (_ !! _) as [[]|]|]; reflexivity.
Qed.

Lemma artifact_request_requests st f :
  requests (artifact_request st f) = S (requests st).
Proof.
  unfold artifact_request; cbv zeta.
  destruct (output _); [destruct (_ !! _) as [[]|]|]; reflexivity.
Qed.

Lemma artifact_request_calls st f :
  rebuild_calls (artifact_request st f)
  = rebuild_calls st + (if triggers (coord st) f then 1 else 0).
Proof.
  unfold rebuild_calls. rewrite artifact_request_promises.
  destruct (triggers _ _); [rewrite length_app; simpl; lia | lia].
Qed.

Lemma artifact_request_outcome st f :
  request_outcome st f (artifact_request st f).
Proof.
  pose proof (artifact_request_coord st f) as Hc.
  pose proof (artifact_request_promises st f) as Hp.
  revert Hc Hp. unfold artifact_request; cbv zeta.
  destruct (output (demand _ _ _)) as [h|] eqn:Ho.
  - destruct (_ !! h) as [[| |files]|] eqn:Hl; intros Hc Hp.
    + eapply outcome_suspended with (h := h); simpl; try reflexivity; [exact Ho|].
      intros files. rewrite Hl. discriminate.
    + eapply outcome_suspended with (h := h); simpl; try reflexivity; [exact Ho|].
      intros files. rewrite Hl. discriminate.
    + eapply outcome_answered with (h := h) (files := files); simpl;
        try reflexivity; [exact Ho | exact Hl].
    + eapply outcome_suspended with (h := h); simpl; try reflexivity; [exact Ho|].
      intros files. rewrite Hl. discriminate.
  - intros Hc Hp. apply outcome_threw; simpl; try reflexivity. exact Ho.
Qed.

(** ** The promise [output] refers to *)

Lemma latest_snoc ps p : latest (ps ++ [p]) = Some (length ps).
Proof.
  unfold latest. destruct (ps ++ [p]) eqn:E.
  - destruct ps; discriminate.
  - rewrite <- E, length_app. simpl. f_equal. lia.
Qed.

Lemma latest_insert ps h p : latest (<[h := p]> ps) = latest ps.
Proof.
  unfold latest. destruct ps as [|q qs]; [reflexivity|].
  destruct h; simpl; rewrite ?length_insert; reflexivity.
Qed.

Lemma latest_lookup ps h : latest ps = Some h -> is_Some (ps !! h).
Proof.
  unfold latest. destruct ps as [|q qs]; [discriminate|].
  intros [= <-]. apply lookup_lt_is_Some. simpl. lia.
Qed.

Lemma lookup_grow (ps : list promise) (b : bool) (i : nat) (p q : promise) :
  ps !! i = Some p -> (if b then ps ++ [q] else ps) !! i = Some p.
Proof.
  intros H. destruct b; [|exact H].
  rewrite lookup_app_l; [exact H | eapply lookup_lt_Some, H].
Qed.

(** ** Lists without duplicates *)

Lemma NoDup_snoc {A} (l : list A) (a : A) :
  List.NoDup l -> ~ In a l -> List.NoDup (l ++ [a]).
Proof.
  induction l as [|x l IH]; simpl; intros Hnd Hin.
  - constructor; [intros [] | constructor].
  - apply List.NoDup_cons_iff in Hnd as [Hx Hnd]. constructor.
    + rewrite in_app_iff. simpl. intros [H|[H|[]]]; [tauto | subst; tauto].
    + apply IH; tauto.
Qed.

Lemma NoDup_map_filter {A B} (f : A -> B) (p : A -> bool) (l : list A) :
  List.NoDup (map f l) -> List.NoDup (map f (List.filter p l)).
Proof.
  induction l as [|x l IH]; simpl; intros Hnd; [constructor|].
  apply List.NoDup_cons_iff in Hnd as [Hx Hnd].
  destruct (p x); simpl; [|now apply IH].
  constructor; [|now apply IH].
  intros H. apply Hx. apply in_map_iff in H as (y & Hy & Hin).
  apply filter_In in Hin as [Hin _]. apply in_map_iff. eauto.
Qed.

Lemma NoDup_map_inj {A B} (f : A -> B) (l : list A) (a b : A) :
  List.NoDup (map f l) -> In a l -> In b l -> f a = f b -> a = b.
Proof.
  induction l as [|x l IH]; simpl; intros Hnd Ha Hb Hf; [contradiction|].
  apply List.NoDup_cons_iff in Hnd as [Hx Hnd].
  destruct Ha as [<-|Ha], Hb as [<-|Hb]; try reflexivity.
  - exfalso. apply Hx. rewrite Hf. now apply in_map.
  - exfalso. apply Hx. rewrite <- Hf. now apply in_map.
  - now apply IH.
Qed.

(** ** The invariant *)

Lemma invariant_init : invariant init.
Proof.
  split; simpl; try (intros; contradiction); try reflexivity.
  - left; reflexivity.
  - intros f Hf. unfold artifact_names in Hf. simpl in Hf.
    repeat (destruct Hf as [<-|Hf]; [vm_compute; eauto|]). destruct Hf.
  - constructor.
Qed.

Lemma invariant_add_response st r :
  s_from r = None -> s_req r = requests st ->
  invariant st -> invariant (add_response st r).
Proof.
  intros Hfrom Hid [Hcount Hout Hwork Hkeys Hwait Hserved Hwid Hsid Hnd Hun].
  split; simpl; try assumption.
  - intros r' h Hin Hh. apply in_app_iff in Hin as [Hin|[<-|[]]]; [eauto | congruence].
  - intros w Hw. apply Hwid in Hw. lia.
  - intros r' Hin. apply in_app_iff in Hin as [Hin|[<-|[]]]; [apply Hsid in Hin|]; lia.
  - intros w r' Hw Hin. apply in_app_iff in Hin as [Hin|[<-|[]]]; [eauto|].
    apply Hwid in Hw. lia.
Qed.

Lemma invariant_artifact_request st f :
  invariant st -> invariant (artifact_request st f).
Proof.
  intros [Hcount Hout Hwork Hkeys Hwait Hserved Hwid Hsid Hnd Hun].
  pose proof (artifact_request_coord st f) as Hc.
  pose proof (artifact_request_promises st f) as Hp.
  pose proof (artifact_request_requests st f) as Hr.
  pose proof (artifact_request_outcome st f) as Ho.
  set (st' := artifact_request st f) in *.
  assert (Hout' : output (coord st') = latest (promises st')).
  { rewrite Hc, Hp, demand_output.
    destruct (triggers _ _); [now rewrite latest_snoc | exact Hout]. }
  assert (Hgrow : forall i p, promises st !! i = Some p -> promises st' !! i = Some p).
  { intros i p H. rewrite Hp. now apply lookup_grow. }
  split.
  - rewrite Hc, Hp, demand_buildCount.
    destruct (triggers _ _); rewrite ?length_app; simpl; lia.
  - exact Hout'.
  - rewrite Hc, demand_workerState, demand_requestCount.
    destruct (String.eqb_spec f WORKER) as [->|Hne].
    + unfold get. rewrite lookup_insert_eq. simpl. unfold requestN, get.
      rewrite String.eqb_refl.
      destruct Hwork as [H0|[H1 Hge]]; [rewrite H0 | rewrite H1];
        change (toggle 0) with 1; change (toggle 1) with 0.
      * right. split; [reflexivity | lia].
      * left. reflexivity.
    + unfold get. rewrite lookup_insert_ne by exact Hne. exact Hwork.
  - rewrite Hc, demand_requestCount. intros g Hg.
    destruct (decide (f = g)) as [->|Hne].
    + rewrite lookup_insert_eq. eauto.
    + rewrite lookup_insert_ne by exact Hne. now apply Hkeys.
  - intros w Hw.
    assert (Hold : In w (waiting st) ->
      promises st' !! w_on w = Some InFlight \/ promises st' !! w_on w = Some Orphaned).
    { intros H. destruct (Hwait w H) as [H'|H']; [left | right]; now apply Hgrow. }
    destruct Ho as [h files Hoh Hl Hw' _ | h Hoh Hl Hw' _ | _ Hw' _];
      rewrite Hw' in Hw; try (now apply Hold).
    apply in_app_iff in Hw as [Hw|[<-|[]]]; [now apply Hold|]. simpl.
    rewrite Hout' in Hoh. destruct (latest_lookup _ _ Hoh) as [[| |files] Hp'];
      [now left | now right | exfalso; eapply Hl, Hp'].
  - intros r h Hin Hh.
    assert (Hold : In r (responses st) ->
      exists files, promises st' !! h = Some (Fulfilled files)
                    /\ s_resp r = artifact_response files (s_file r)).
    { intros H. destruct (Hserved r h H Hh) as (files & H1 & H2). eauto. }
    destruct Ho as [h' files Hoh Hl _ Hr' | h' Hoh Hl _ Hr' | _ _ Hr'];
      rewrite Hr' in Hin; try (now apply Hold);
      (apply in_app_iff in Hin as [Hin|[<-|[]]]; [now apply Hold|]).
    + simpl in Hh. injection Hh as <-. exists files. split; [exact Hl | reflexivity].
    + discriminate Hh.
  - rewrite Hr. intros w Hw.
    destruct Ho as [h files _ _ Hw' _ | h _ _ Hw' _ | _ Hw' _]; rewrite Hw' in Hw;
      try (apply Hwid in Hw; lia).
    apply in_app_iff in Hw as [Hw|[<-|[]]]; [apply Hwid in Hw; lia | simpl; lia].
  - rewrite Hr. intros r Hin.
    destruct Ho as [h files _ _ _ Hr' | h _ _ _ Hr' | _ _ Hr']; rewrite Hr' in Hin;
      try (apply Hsid in Hin; lia);
      (apply in_app_iff in Hin as [Hin|[<-|[]]]; [apply Hsid in Hin; lia | simpl; lia]).
  - destruct Ho as [h files _ _ Hw' _ | h _ _ Hw' _ | _ Hw' _]; rewrite Hw';
      try exact Hnd.
    rewrite map_app. simpl. apply NoDup_snoc; [exact Hnd|].
    intros H. apply in_map_iff in H as (w & Hw1 & Hw2). apply Hwid in Hw2. lia.
  - intros w r Hw Hin.
    destruct Ho as [h files _ _ Hw' Hr' | h _ _ Hw' Hr' | _ Hw' Hr'];
      rewrite Hw' in Hw; rewrite Hr' in Hin.
    + apply in_app_iff in Hin as [Hin|[<-|[]]]; [eauto|]. simpl. apply Hwid in Hw. lia.
    + apply in_app_iff in Hw as [Hw|[<-|[]]]; [eauto|]. simpl. apply Hsid in Hin. lia.
    + apply in_app_iff in Hin as [Hin|[<-|[]]]; [eauto|]. simpl. apply Hwid in Hw. lia.
Qed.

Lemma waits_on_true h w : waits_on h w = true <-> w_on w = h.
Proof. unfold waits_on. apply Nat.eqb_eq. Qed.

Lemma waits_on_false h w : negb (waits_on h w) = true <-> w_on w <> h.
Proof.
  unfold waits_on. rewrite negb_true_iff. apply Nat.eqb_neq.
Qed.

Lemma invariant_resolved env st h outputFiles :
  promises st !! h = Some InFlight ->
  invariant st -> invariant (step env st (RebuildResolved h outputFiles)).
Proof.
  intros Hh [Hcount Hout Hwork Hkeys Hwait Hserved Hwid Hsid Hnd Hun].
  simpl. rewrite Hh.
  assert (Hlt : h < length (promises st)) by (eapply lookup_lt_Some, Hh).
  split; simpl; try assumption.
  - now rewrite length_insert.
  - now rewrite latest_insert.
  - intros w Hw. apply filter_In in Hw as [Hw Hne]. apply waits_on_false in Hne.
    rewrite list_lookup_insert_ne by congruence. now apply Hwait.
  - intros r h' Hin Hfrom. apply in_app_iff in Hin as [Hin|Hin].
    + destruct (Hserved r h' Hin Hfrom) as (files & H1 & H2).
      exists files. split; [|exact H2].
      rewrite list_lookup_insert_ne; [exact H1 | congruence].
    + apply in_map_iff in Hin as (w & <- & Hw). apply filter_In in Hw as [Hw Hon].
      apply waits_on_true in Hon. simpl in Hfrom. injection Hfrom as <-. subst h.
      eexists. split; [now apply list_lookup_insert_eq | reflexivity].
  - intros w Hw. apply filter_In in Hw as [Hw _]. now apply Hwid.
  - intros r Hin. apply in_app_iff in Hin as [Hin|Hin]; [now apply Hsid|].
    apply in_map_iff in Hin as (w & <- & Hw). apply filter_In in Hw as [Hw _].
    simpl. now apply Hwid.
  - now apply NoDup_map_filter.
  - intros w r Hw Hin. apply filter_In in Hw as [Hw Hne]. apply waits_on_false in Hne.
    apply in_app_iff in Hin as [Hin|Hin]; [now apply Hun|].
    apply in_map_iff in Hin as (w' & <- & Hw'). apply filter_In in Hw' as [Hw' Hon].
    apply waits_on_true in Hon. simpl. intros Heq.
    assert (w' = w) by (eapply NoDup_map_inj; eauto). congruence.
Qed.

Lemma invariant_rejected env st h :
  promises st !! h = Some InFlight ->
  invariant st -> invariant (step env st (RebuildRejected h)).
Proof.
  intros Hh [Hcount Hout Hwork Hkeys Hwait Hserved Hwid Hsid Hnd Hun].
  simpl. rewrite Hh.
  assert (Hlt : h < length (promises st)) by (eapply lookup_lt_Some, Hh).
  split; simpl; try assumption.
  - now rewrite length_insert.
  - now rewrite latest_insert.
  - intros w Hw. destruct (decide (w_on w = h)) as [->|Hne].
    + right. now apply list_lookup_insert_eq.
    + rewrite list_lookup_insert_ne by congruence. now apply Hwait.
  - intros r h' Hin Hfrom.
    destruct (Hserved r h' Hin Hfrom) as (files & H1 & H2).
    exists files. split; [|exact H2].
    rewrite list_lookup_insert_ne; [exact H1 | congruence].
Qed.

Lemma invariant_step env st e : invariant st -> invariant (step env st e).
Proof.
  intros Hinv. destruct e as [url|h outputFiles|h].
  - simpl. destruct (classify env url).
    + now apply invariant_add_response.
    + now apply invariant_artifact_request.
    + now apply invariant_add_response.
  - destruct (promises st !! h) as [[| |]|] eqn:Hh;
      [now apply invariant_resolved | | |]; simpl; rewrite Hh; exact Hinv.
  - destruct (promises st !! h) as [[| |]|] eqn:Hh;
      [now apply invariant_rejected | | |]; simpl; rewrite Hh; exact Hinv.
Qed.

Lemma invariant_run env st evs : invariant st -> invariant (run env st evs).
Proof.
  revert st; induction evs as [|e evs IH]; intros st Hinv; simpl; [exact Hinv|].
  apply IH, invariant_step, Hinv.
Qed.

Lemma run_invariant env evs : invariant (run env init evs).
Proof. apply invariant_run, invariant_init. Qed.

(** Every artifact name is a key of [requestCount], in every state of a run:
    [get] never falls back on its default. *)
Lemma requestCount_total env evs f :
  is_artifact f = true ->
  exists n, requestCount (coord (run env init evs)) !! f = Some n.
Proof.
  intros Hf. apply (inv_keys _ (run_invariant env evs)).
  unfold is_artifact in Hf. apply orb_true_iff in Hf.
  unfold artifact_names. apply in_app_iff.
  destruct Hf as [Hf|Hf]; [left | right];
    apply existsb_exists in Hf as (g & Hg & Heq);
    apply String.eqb_eq in Heq; now subst.
Qed.

(** ** Events that are not requests *)

Lemma settle_frame env st e :
  is_request e = false ->
  coord (step env st e) = coord st
  /\ rebuild_calls (step env st e) = rebuild_calls st
  /\ requests (step env st e) = requests st.
Proof.
  destruct e as [url|h outputFiles|h]; [discriminate| |]; intros _; simpl;
    destruct (promises st !! h) as [[| |]|]; unfold rebuild_calls; simpl;
    rewrite ?length_insert; auto.
Qed.


(** ** Requests and rebuilds *)

Lemma request_calls env st url f :
  classify env url = ToCoordinator f ->
  rebuild_calls (step env st (Request url))
  = rebuild_calls st + (if triggers (coord st) f then 1 else 0).
Proof. intros H. simpl. rewrite H. apply artifact_request_calls. Qed.

Lemma step_calls_bound env st e :
  rebuild_calls (step env st e)
  <= rebuild_calls st + (if is_artifact_request env e then 1 else 0).
Proof.
  destruct e as [url|h outputFiles|h].
  - unfold is_artifact_request.
    destruct (classify env url) as [loc|f|url'] eqn:Hc.
    + simpl. rewrite Hc. unfold rebuild_calls. simpl. lia.
    + rewrite (request_calls env st url f Hc). destruct (triggers _ _); lia.
    + simpl. rewrite Hc. unfold rebuild_calls. simpl. lia.
  - destruct (settle_frame env st (RebuildResolved h outputFiles) eq_refl) as (_ & H & _).
    rewrite H. simpl. lia.
  - destruct (settle_frame env st (RebuildRejected h) eq_refl) as (_ & H & _).
    rewrite H. simpl. lia.
Qed.

Lemma run_calls_bound env evs :
  forall st, rebuild_calls (run env st evs) <= rebuild_calls st + artifact_requests env evs.
Proof.
  induction evs as [|e evs IH]; intros st; simpl; [unfold artifact_requests; simpl; lia|].
  specialize (IH (step env st e)). pose proof (step_calls_bound env st e) as Hs.
  unfold artifact_requests in *. simpl.
  destruct (is_artifact_request env e); simpl; lia.
Qed.


(** ** Requests for the worker script only *)




(** ** The claims about the coordinator *)

(** C1, as the script has it.  The coordinator refers to one promise, the
    one created last.  Whether a rebuild is running is not looked at: a
    request for an artifact starts a rebuild exactly when its updated
    request count differs from [buildCount].  A request that starts none
    reads its body from the promise [output] already referred to; one that
    starts a rebuild reads it from the new promise.  Two requests for one
    file that read from the same promise get the same response. *)
Theorem requests_share_output env evs :
  let st := run env init evs in
  output (coord st) = latest (promises st)
  /\ (forall url f,
        classify env url = ToCoordinator f ->
        let st' := step env st (Request url) in
        rebuild_calls st' = rebuild_calls st + (if triggers (coord st) f then 1 else 0)
        /\ (triggers (coord st) f = false ->
            output (coord st') = output (coord st)
            /\ exists h, output (coord st) = Some h /\ attached st' (requests st) h)
        /\ (triggers (coord st) f = true ->
            output (coord st') = Some (rebuild_calls st)
            /\ attached st' (requests st) (rebuild_calls st)))
  /\ (forall r1 r2 h,
        In r1 (responses st) -> In r2 (responses st) ->
        s_from r1 = Some h -> s_from r2 = Some h -> s_file r1 = s_file r2 ->
        s_resp r1 = s_resp r2).
Proof.
  intros st. pose proof (run_invariant env evs) as Hinv. fold st in Hinv.
  split; [apply (inv_output _ Hinv)|]. split.
  - intros url f Hcl st'.
    assert (Hst' : st' = artifact_request st f) by (unfold st'; simpl; now rewrite Hcl).
    assert (Hatt : forall h, output (coord st') = Some h -> attached st' (requests st) h).
    { intros h Hh. rewrite Hst' in *.
      destruct (artifact_request_outcome st f)
        as [k files Hk _ _ Hr | k Hk _ Hw _ | Hk _ _].
      - right. eexists. split; [rewrite Hr; apply in_app_iff; right; now left|].
        simpl. split; [reflexivity | congruence].
      - left. eexists. split; [rewrite Hw; apply in_app_iff; right; now left|].
        simpl. split; [reflexivity | congruence].
      - congruence. }
    assert (Hout : output (coord st')
                   = if triggers (coord st) f then Some (rebuild_calls st)
                     else output (coord st)).
    { rewrite Hst', artifact_request_coord. apply demand_output. }
    split; [unfold st'; now apply request_calls|].
    split; intros Ht; rewrite Ht in Hout.
    + split; [exact Hout|].
      destruct (output (coord st)) as [h|] eqn:Ho.
      * exists h. split; [reflexivity | now apply Hatt].
      * exfalso. rewrite (inv_output _ Hinv) in Ho.
        pose proof (inv_count _ Hinv) as Hcount.
        destruct (promises st) as [|p ps] eqn:Hps; [|discriminate Ho].
        simpl in Hcount. unfold triggers in Ht.
        apply negb_false_iff, Nat.eqb_eq in Ht. rewrite Hcount in Ht.
        unfold requestN in Ht.
        destruct (String.eqb f WORKER) eqn:Hf; [|lia].
        apply String.eqb_eq in Hf. subst f.
        destruct (inv_worker _ Hinv) as [H0|[H1 Hge]].
        -- rewrite H0 in Ht. change (toggle 0) with 1 in Ht. lia.
        -- lia.
    + split; [exact Hout | now apply Hatt].
  - intros r1 r2 h H1 H2 Hf1 Hf2 Hfile.
    destruct (inv_served _ Hinv r1 h H1 Hf1) as (files1 & Hp1 & ->).
    destruct (inv_served _ Hinv r2 h H2 Hf2) as (files2 & Hp2 & ->).
    rewrite Hp1 in Hp2. injection Hp2 as <-. now rewrite Hfile.
Qed.

(** The second of two worker-script requests at server start starts no
    rebuild and reads from the promise of the first. *)
Lemma requests_share_output_witness :
  exists h,
    output (coord (run example_env init [get_worker])) = Some h
    /\ attached (step example_env (run example_env init [get_worker]) get_worker) 1 h.
Proof.
  destruct (requests_share_output example_env [get_worker]) as (_ & H & _).
  destruct (H "/uma-tools/umalator-global/simulator.worker.js" WORKER eq_refl)
    as (_ & Hshare & _).
  destruct (Hshare eq_refl) as (_ & h & Hh & Ha).
  exists h. split; [exact Hh | exact Ha].
Defined.

(** C1 as stated fails: a second request for [bundle.js] that arrives while
    the rebuild started by the first is running starts a second rebuild and
    waits on a second promise; the two requests are answered from two
    results of the builder. *)
Lemma second_request_rebuilds_while_building :
  building (run example_env init [get_js]) = true
  /\ rebuild_calls (run example_env init [get_js]) = 1
  /\ rebuild_calls (run example_env init [get_js; get_js]) = 2
  /\ waiting (run example_env init [get_js; get_js])
     = [ {| w_req := 0; w_file := "bundle.js"; w_on := 0 |};
         {| w_req := 1; w_file := "bundle.js"; w_on := 1 |} ]
  /\ map s_resp
       (responses
          (run example_env init
             [get_js; get_js;
              RebuildResolved 0 [("/out/bundle.js", [Byte.x01])];
              RebuildResolved 1 [("/out/bundle.js", [Byte.x02])]]))
     = [ ArtifactOK (Some "text/javascript") 1 [Byte.x01];
         ArtifactOK (Some "text/javascript") 1 [Byte.x02] ]
  /\ ~ (forall evs url,
          building (run example_env init evs) = true ->
          rebuild_calls (step example_env (run example_env init evs) (Request url))
          = rebuild_calls (run example_env init evs)).
Proof.
  repeat conj_split; try by_evaluation.
  intros H.
  specialize (H [get_js] "/uma-tools/umalator-global/bundle.js" eq_refl).
  vm_compute in H. discriminate H.
Qed.

(** C2, as the script has it.  [buildCount] is the number of rebuilds
    started, and it never exceeds the number of requests for artifacts
    received so far: every rebuild is started by such a request. *)
Theorem buildCount_bounded_by_requests env evs :
  buildCount (coord (run env init evs)) = rebuild_calls (run env init evs)
  /\ buildCount (coord (run env init evs)) <= artifact_requests env evs.
Proof.
  pose proof (inv_count _ (run_invariant env evs)) as Hc.
  pose proof (run_calls_bound env evs init) as Hb.
  unfold rebuild_calls in *. simpl in Hb. split; [exact Hc | lia].
Qed.

(** C2 as stated fails: after two requests for [bundle.js] and one for
    [bundle.css], [buildCount] is 3 and the largest request counter is 2. *)
Lemma buildCount_exceeds_max_requestCount :
  buildCount (coord (run example_env init [get_js; get_js; get_css])) = 3
  /\ max_requestCount (coord (run example_env init [get_js; get_js; get_css])) = 2
  /\ ~ (forall evs,
          buildCount (coord (run example_env init evs))
          <= max_requestCount (coord (run example_env init evs))).
Proof.
  repeat conj_split; try by_evaluation.
  intros H. specialize (H [get_js; get_js; get_css]).
  vm_compute in H. lia.
Qed.



(** C3, at the input where the script misses it.  The comment at line 129
    says that the second of the client's two requests for the worker script
    is not to rebuild.  After two requests for [bundle.js] the counter of the
    worker script is two behind [buildCount]: two consecutive requests for
    the worker script then start two rebuilds, one each, where [ceil(2/2)]
    is one. *)
Lemma worker_pair_rebuilds_twice :
  rebuild_calls (run example_env init [get_js; get_js]) = 2
  /\ rebuild_calls
       (run example_env (run example_env init [get_js; get_js]) [get_worker; get_worker])
     = 4
  /\ ~ (forall evs N,
          rebuild_calls (run example_env (run example_env init evs) (repeat get_worker N))
          <= rebuild_calls (run example_env init evs) + (N + 1) / 2).
Proof.
  repeat conj_split; try by_evaluation.
  intros H. specialize (H [get_js; get_js] 2).
  vm_compute in H. lia.
Qed.

(** ** The process after a failed rebuild *)

Lemma execute_alive env evs :
  forall st0 st,
    Process.execute env st0 evs = (st, false) ->
    st = run env st0 evs
    /\ forall more, Process.execute env st0 (evs ++ more) = Process.execute env st more.
Proof.
  induction evs as [|e evs IH]; intros st0 st H.
  - injection H as <-. auto.
  - cbn [Process.execute] in H. cbn [app Process.execute].
    destruct (Process.unhandled_rejection st0 e); [discriminate|].
    destruct (IH _ _ H) as [Hrun Hmore]. auto.
Qed.

(** C4, as the script has it.  When the rebuild of a promise fails, the
    failure reaches nobody: no response is written for the requests that
    wait for that promise (nor for any other suspended request), and the
    counters, [output], the suspended requests and the responses stay as
    they are.  The rejection is handled nowhere, so the process ends there:
    whatever is sent later, no request is answered and no rebuild is
    started any more. *)
Theorem rebuild_failure_ends_the_server env evs st h later :
  Process.execute env init evs = (st, false) ->
  promises st !! h = Some InFlight ->
  Process.execute env init (evs ++ RebuildRejected h :: later)
  = (step env st (RebuildRejected h), true)
  /\ coord (step env st (RebuildRejected h)) = coord st
  /\ waiting (step env st (RebuildRejected h)) = waiting st
  /\ responses (step env st (RebuildRejected h)) = responses st
  /\ rebuild_calls (step env st (RebuildRejected h)) = rebuild_calls st
  /\ (forall w, In w (waiting st) ->
                ~ answered (step env st (RebuildRejected h)) (w_req w)).
Proof.
  intros Halive Hh. destruct (execute_alive env evs init st Halive) as [Hrun Hmore].
  assert (Hstep : step env st (RebuildRejected h)
                  = {| coord := coord st; promises := <[h := Orphaned]> (promises st);
                       waiting := waiting st; responses := responses st;
                       requests := requests st |})
    by (simpl; now rewrite Hh).
  split.
  - rewrite Hmore. cbn [Process.execute Process.unhandled_rejection]. now rewrite Hh.
  - rewrite Hstep. cbn [coord waiting responses]. repeat conj_split; try reflexivity.
    + unfold rebuild_calls. simpl. apply length_insert.
    + intros w Hw (r & Hr & Hid). simpl in Hr.
      assert (Hinv : invariant st) by (rewrite Hrun; apply run_invariant).
      exact (inv_unanswered _ Hinv w r Hw Hr Hid).
Qed.

Lemma rebuild_failure_ends_the_server_witness :
  Process.execute example_env init ([get_js] ++ RebuildRejected 0 :: [get_js; get_css])
  = (step example_env (run example_env init [get_js]) (RebuildRejected 0), true)
  /\ responses (step example_env (run example_env init [get_js]) (RebuildRejected 0))
     = responses (run example_env init [get_js])
  /\ rebuild_calls (step example_env (run example_env init [get_js]) (RebuildRejected 0))
     = rebuild_calls (run example_env init [get_js]).
Proof.
  destruct (rebuild_failure_ends_the_server example_env [get_js]
              (run example_env init [get_js]) 0 [get_js; get_css] eq_refl eq_refl)
    as (H1 & _ & _ & H4 & H5 & _).
  repeat conj_split; [exact H1 | exact H4 | exact H5].
Defined.

(** C4 as stated fails: after a failed rebuild the request that waited for
    it has no response, and the process has ended: a request for the same
    artifact that is sent afterwards is not answered either and starts no
    rebuild. *)
Lemma failed_rebuild_answers_nobody :
  Process.execute example_env init [get_js; RebuildRejected 0; get_js]
  = (run example_env init [get_js; RebuildRejected 0], true)
  /\ responses (run example_env init [get_js; RebuildRejected 0]) = []
  /\ waiting (run example_env init [get_js; RebuildRejected 0])
     = [ {| w_req := 0; w_file := "bundle.js"; w_on := 0 |} ]
  /\ rebuild_calls (run example_env init [get_js; RebuildRejected 0]) = 1
  /\ ~ (forall evs h w,
          promises (run example_env init evs) !! h = Some InFlight ->
          In w (waiting (run example_env init evs)) -> w_on w = h ->
          answered (fst (Process.execute example_env init (evs ++ [RebuildRejected h])))
            (w_req w))
  /\ ~ (forall evs h url f,
          promises (run example_env init evs) !! h = Some InFlight ->
          classify example_env url = ToCoordinator f ->
          rebuild_calls
            (fst (Process.execute example_env init
                    (evs ++ [RebuildRejected h; Request url])))
          = S (rebuild_calls (run example_env init evs))).
Proof.
  repeat conj_split; try by_evaluation.
  - intros H.
    specialize (H [get_js] 0 {| w_req := 0; w_file := "bundle.js"; w_on := 0 |}
                  eq_refl (or_introl eq_refl) eq_refl).
    destruct H as (r & Hr & _). vm_compute in Hr. exact Hr.
  - intros H.
    specialize (H [get_js] 0 "/uma-tools/umalator-global/bundle.js"
                  "bundle.js" eq_refl eq_refl).
    vm_compute in H. discriminate H.
Qed.



End ServerFacts.

(** * Further properties of the resolution plugins *)

Module ResolutionFacts.

Import Plugins Traces.

Lemma dispatch_resolved rules spec r :
  dispatch rules spec = Resolved r ->
  exists rule, In rule rules /\ Regex.test (filter rule) spec = true
               /\ callback rule spec = Some r.
Proof.
  induction rules as [|rule rules IH]; simpl; [discriminate|].
  destruct (Regex.test (filter rule) spec) eqn:Ht.
  - destruct (callback rule spec) as [r'|] eqn:Hc; [|discriminate].
    intros [= <-]. exists rule. auto.
  - intros H. destruct (IH H) as (rule' & Hin & H'). exists rule'. auto.
Qed.

Lemma dispatch_threw rules spec :
  dispatch rules spec = Threw ->
  exists rule, In rule rules /\ Regex.test (filter rule) spec = true
               /\ callback rule spec = None.
Proof.
  induction rules as [|rule rules IH]; simpl; [discriminate|].
  destruct (Regex.test (filter rule) spec) eqn:Ht.
  - destruct (callback rule spec) as [r'|] eqn:Hc; [discriminate|].
    intros _. exists rule. auto.
  - intros H. destruct (IH H) as (rule' & Hin & H'). exists rule'. auto.
Qed.

Lemma in_plugins dirname rule :
  In rule (plugins dirname) ->
  rule = {| filter := data_filter; callback := data_callback dirname |}
  \/ (exists f, In f data_files /\ rule = file_rule dirname f)
  \/ In rule mockAssert
  \/ In rule (redirectTable dirname).
Proof.
  unfold plugins, redirectData. intros H.
  apply in_app_iff in H as [[H|H]|H].
  - left. now symmetry.
  - right. left. apply in_map_iff in H as (f & <- & Hf). eauto.
  - apply in_app_iff in H. tauto.
Qed.

Lemma in_rests_end s t : In t (Regex.rests Regex.End s) <-> s = "" /\ t = "".
Proof.
  simpl. destruct s; simpl; split.
  - intros [<-|[]]. auto.
  - intros [_ ->]. now left.
  - intros [].
  - intros [H _]. discriminate.
Qed.

Lemma assert_filter_inv spec :
  Regex.test assert_filter spec = true -> spec = "node:assert".
Proof.
  unfold Regex.test, assert_filter; cbn [Regex.anchored Regex.pattern].
  intros H. apply PluginsFacts.matches_at_true in H as [t H].
  apply PluginsFacts.in_rests_cat in H as (u & Hu & Ht).
  apply PluginsFacts.in_rests_lit in Hu. apply in_rests_end in Ht as [-> _].
  subst spec. reflexivity.
Qed.

(** X1.  Resolution never fails inside a plugin: whenever the generic data
    pattern matches a specifier, [split('/data/')[1]] is defined, and no
    other callback can throw. *)
Theorem resolve_never_throws dirname spec : resolve dirname spec <> Threw.
Proof.
  intros H. apply dispatch_threw in H as (rule & Hin & Ht & Hc).
  apply in_plugins in Hin as [->|[(f & _ & ->)|[Hin|Hin]]].
  - cbn [filter callback] in Ht, Hc.
    destruct (PluginsFacts.data_filter_inv spec Ht) as (pre & rest & Hpre & ->).
    destruct (PluginsFacts.resolve_data dirname pre rest Hpre)
      as (file & others & _ & H1 & _).
    unfold data_callback in Hc. rewrite H1 in Hc. discriminate.
  - discriminate.
  - destruct Hin as [<-|[]]. discriminate.
  - destruct Hin as [<-|[]]. discriminate.
Qed.

(** X2.  A specifier is put into a namespace of its own exactly when it is
    [node:assert]: no other specifier ([assert], [node:assert/strict], ...)
    is replaced by the stub. *)
Theorem stub_only_for_node_assert dirname spec :
  (exists r, resolve dirname spec = Resolved r /\ namespace r <> None)
  <-> spec = "node:assert".
Proof.
  split.
  - intros (r & H & Hns). apply dispatch_resolved in H as (rule & Hin & Ht & Hc).
    apply in_plugins in Hin as [->|[(f & _ & ->)|[Hin|Hin]]].
    + cbn [callback] in Hc. unfold data_callback in Hc.
      destruct (_ !! 1%nat); [|discriminate]. injection Hc as <-. now elim Hns.
    + cbn [file_rule callback] in Hc. injection Hc as <-. now elim Hns.
    + destruct Hin as [<-|[]]. cbn [filter] in Ht. now apply assert_filter_inv.
    + destruct Hin as [<-|[]]. cbn [callback] in Hc. injection Hc as <-. now elim Hns.
  - intros ->. eexists. split; [vm_compute; reflexivity | discriminate].
Qed.

Lemma dispatch_files_none dirname rules spec :
  find (fun g => Regex.test (filter (file_rule dirname g)) spec) data_files = None ->
  dispatch (map (file_rule dirname) data_files ++ rules) spec = dispatch rules spec.
Proof.
  generalize data_files. intros l; induction l as [|g l IH]; simpl; [reflexivity|].
  destruct (Regex.test _ spec); [discriminate | exact IH].
Qed.

(** X3.  A specifier [@tanstack/<rest>] that the pattern of no well-known
    data file matches is resolved to [<dirname>/../vendor/<rest>/index.ts]. *)
Theorem tanstack_goes_to_vendor dirname rest :
  find (fun g => Regex.test (filter (file_rule dirname g)) ("@tanstack/" +:+ rest))
    data_files = None ->
  resolve dirname ("@tanstack/" +:+ rest)
  = Resolved {| path := Path.join [dirname; ".."; "vendor"; rest; "index.ts"];
                namespace := None |}.
Proof.
  intros Hnone. unfold resolve, plugins, redirectData.
  cbn [app dispatch filter].
  change (Regex.test data_filter ("@tanstack/" +:+ rest)) with false. cbv iota.
  rewrite (dispatch_files_none dirname _ _ Hnone). reflexivity.
Qed.

Lemma tanstack_goes_to_vendor_witness :
  resolve "/repo/umalator-global" ("@tanstack/" +:+ "react-table")
  = Resolved {| path := Path.join ["/repo/umalator-global"; ".."; "vendor";
                                   "react-table"; "index.ts"];
                namespace := None |}.
Proof.
  apply (tanstack_goes_to_vendor "/repo/umalator-global" "react-table").
  vm_compute. reflexivity.
Defined.

Lemma literal_matches f :
  forall s,
    one_line f = true -> JsString.startsWith s f = true ->
    exists t, In t (Regex.rests (Regex.of_source f) s).
Proof.
  induction f as [|c f IH]; intros s Hline Hstart.
  - exists s. now left.
  - destruct s as [|d s]; [discriminate|].
    cbn [JsString.startsWith] in Hstart. apply andb_true_iff in Hstart as [Hc Hs].
    apply Ascii.eqb_eq in Hc. subst d.
    unfold one_line in Hline. cbn [list_ascii_of_string forallb] in Hline.
    apply andb_true_iff in Hline as [Hc Hline]. apply negb_true_iff in Hc.
    destruct (IH s Hline Hs) as [t Ht]. exists t.
    cbn [Regex.of_source]. apply PluginsFacts.in_rests_cat. exists s. split; [|exact Ht].
    destruct (Ascii.eqb c ".").
    + simpl. rewrite Hc. now left.
    + now apply PluginsFacts.in_rests_chr.
Qed.

Lemma includes_search f s :
  one_line f = true -> JsString.includes f s = true ->
  Regex.search (Regex.of_source f) s = true.
Proof.
  intros Hline. induction s as [|d s IH]; cbn [JsString.includes Regex.search]; intros H.
  - apply orb_true_iff in H as [H|H]; [|discriminate].
    apply orb_true_iff. left. apply PluginsFacts.matches_at_true.
    now apply literal_matches.
  - apply orb_true_iff in H as [H|H]; apply orb_true_iff.
    + left. apply PluginsFacts.matches_at_true. now apply literal_matches.
    + right. now apply IH.
Qed.

(** X4.  The patterns of the well-known data files are not anchored: a
    specifier that contains one of these names anywhere, and that the generic
    data pattern does not match, is resolved to a well-known data file under
    [dirname], the first in the list whose pattern matches. *)
Theorem data_file_name_anywhere dirname spec f :
  In f data_files ->
  JsString.includes f spec = true ->
  Regex.test data_filter spec = false ->
  exists g,
    In g data_files
    /\ find (fun g => Regex.test (filter (file_rule dirname g)) spec) data_files = Some g
    /\ resolve dirname spec = file_target dirname g.
Proof.
  intros Hf Hinc Hno.
  assert (Hline : one_line f = true).
  { simpl in Hf. destruct Hf as [<-|[<-|[<-|[<-|[]]]]]; reflexivity. }
  assert (Hmatch : Regex.test (filter (file_rule dirname f)) spec = true).
  { unfold Regex.test; cbn. now apply includes_search. }
  destruct (find (fun g => Regex.test (filter (file_rule dirname g)) spec) data_files)
    as [g|] eqn:Hfind.
  - exists g. split; [eapply find_some, Hfind|]. split; [reflexivity|].
    unfold resolve, plugins, redirectData. cbn [app dispatch filter]. rewrite Hno.
    now apply PluginsFacts.dispatch_files.
  - exfalso. pose proof (find_none _ _ Hfind f Hf) as Hnf. cbv beta in Hnf. congruence.
Qed.

Lemma data_file_name_anywhere_witness :
  exists g,
    In g data_files
    /\ find (fun g => Regex.test (filter (file_rule "/repo/umalator-global" g))
                       "some-package/dist/umas.json.js") data_files = Some g
    /\ resolve "/repo/umalator-global" "some-package/dist/umas.json.js"
       = file_target "/repo/umalator-global" g.
Proof.
  apply (data_file_name_anywhere "/repo/umalator-global"
           "some-package/dist/umas.json.js" "umas.json").
  - simpl. tauto.
  - vm_compute. reflexivity.
  - vm_compute. reflexivity.
Defined.

End ResolutionFacts.

(** * Further properties of the request router and of static serving *)

Module RoutingFacts.

Import Server Traces.

(** ** Strings *)

Lemma startsWith_app (a s t : string) :
  JsString.startsWith (a +:+ s) (a +:+ t) = JsString.startsWith s t.
Proof.
  induction a as [|c a IH]; [reflexivity|].
  change (JsString.startsWith (String c (a +:+ s)) (String c (a +:+ t))
          = JsString.startsWith s t).
  cbn [JsString.startsWith]. now rewrite Ascii.eqb_refl, IH.
Qed.

Lemma slice_app (a b : string) : JsString.slice (String.length a) (a +:+ b) = b.
Proof. induction a as [|c a IH]; [reflexivity | exact IH]. Qed.

Lemma list_ascii_app (a b : string) :
  list_ascii_of_string (a +:+ b) = list_ascii_of_string a ++ list_ascii_of_string b.
Proof.
  induction a as [|c a IH]; [reflexivity|].
  change (c :: list_ascii_of_string (a +:+ b)
          = c :: (list_ascii_of_string a ++ list_ascii_of_string b)).
  now rewrite IH.
Qed.

(** ** The last segment of a path *)

Lemma take_segment_app (l r : list ascii) :
  forallb (fun c => negb (Ascii.eqb c Path.slash)) l = true ->
  Path.take_segment (l ++ Path.slash :: r) = l.
Proof.
  induction l as [|c l IH]; simpl; intros H.
  - reflexivity.
  - apply andb_true_iff in H as [Hc Hl]. apply negb_true_iff in Hc.
    rewrite Hc. now rewrite IH.
Qed.

Lemma drop_slashes_keep (l r : list ascii) :
  l <> [] ->
  forallb (fun c => negb (Ascii.eqb c Path.slash)) l = true ->
  Path.drop_slashes (l ++ r) = l ++ r.
Proof.
  destruct l as [|c l]; [congruence|]. simpl. intros _ H.
  apply andb_true_iff in H as [Hc _]. apply negb_true_iff in Hc. now rewrite Hc.
Qed.

Lemma forallb_rev {A} (p : A -> bool) (l : list A) :
  forallb p (rev l) = forallb p l.
Proof.
  destruct (forallb p l) eqn:E.
  - apply forallb_forall. intros x Hx. apply in_rev in Hx.
    rewrite forallb_forall in E. now apply E.
  - destruct (forallb p (rev l)) eqn:E'; [|reflexivity].
    rewrite forallb_forall in E'.
    assert (forallb p l = true); [|congruence].
    apply forallb_forall. intros x Hx. apply E'. now apply in_rev in Hx.
Qed.

Lemma basename_last (x f : string) :
  f <> EmptyString -> no_slash f = true ->
  Path.basename (x +:+ "/" +:+ f) = f.
Proof.
  intros Hne Hns. unfold Path.basename, no_slash in *.
  rewrite list_ascii_app. change (list_ascii_of_string ("/" +:+ f))
    with (Path.slash :: list_ascii_of_string f).
  rewrite rev_app_distr. cbn [rev]. rewrite <- app_assoc. cbn [app].
  assert (Hrev : forallb (fun c => negb (Ascii.eqb c Path.slash))
                   (rev (list_ascii_of_string f)) = true)
    by now rewrite forallb_rev.
  rewrite drop_slashes_keep; [| |exact Hrev].
  - rewrite take_segment_app by exact Hrev.
    rewrite rev_involutive. apply string_of_list_ascii_of_string.
  - destruct f as [|c f]; [congruence|]. simpl.
    destruct (rev (list_ascii_of_string f)); discriminate.
Qed.

Lemma basename_plain (f : string) :
  f <> EmptyString -> no_slash f = true -> Path.basename f = f.
Proof.
  intros Hne Hns. unfold Path.basename, no_slash in *.
  assert (Hrev : forallb (fun c => negb (Ascii.eqb c Path.slash))
                   (rev (list_ascii_of_string f)) = true)
    by now rewrite forallb_rev.
  assert (Hnil : rev (list_ascii_of_string f) <> []).
  { destruct f as [|c f]; [congruence|]. simpl.
    destruct (rev (list_ascii_of_string f)); discriminate. }
  rewrite <- (app_nil_r (rev (list_ascii_of_string f))) at 1.
  rewrite drop_slashes_keep by assumption. rewrite app_nil_r.
  assert (Htake : forall l, forallb (fun c => negb (Ascii.eqb c Path.slash)) l = true ->
                            Path.take_segment l = l).
  { induction l as [|c l IH]; simpl; [reflexivity|]. intros H.
    apply andb_true_iff in H as [Hc Hl]. apply negb_true_iff in Hc.
    rewrite Hc. now rewrite IH. }
  rewrite Htake by exact Hrev.
  rewrite rev_involutive. apply string_of_list_ascii_of_string.
Qed.

Lemma is_artifact_in f : is_artifact f = true -> In f artifact_names.
Proof.
  unfold is_artifact. intros Hf. apply orb_true_iff in Hf.
  unfold artifact_names. apply in_app_iff.
  destruct Hf as [Hf|Hf]; [left | right];
    apply existsb_exists in Hf as (g & Hg & Heq);
    apply String.eqb_eq in Heq; now subst.
Qed.

Lemma artifact_is_segment f :
  is_artifact f = true -> f <> EmptyString /\ no_slash f = true.
Proof.
  intros Hf. apply is_artifact_in in Hf. unfold artifact_names in Hf. simpl in Hf.
  destruct Hf as [<-|[<-|[<-|[<-|[<-|[<-|[]]]]]]]; split;
    (discriminate || reflexivity).
Qed.

Lemma prefix_none env :
  subpackage_of env = None \/ subpackage_of env = Some EmptyString ->
  prefix_of env = None.
Proof. unfold prefix_of. intros [->| ->]; reflexivity. Qed.

Lemma classify_redirect_inv env url location :
  classify env url = ToRedirect location ->
  exists p, prefix_of env = Some p
            /\ location = "/" +:+ p +:+ "/" +:+ THIS_PACKAGE +:+ "/".
Proof.
  unfold classify, mismatch. destruct (prefix_of env) as [p|].
  - destruct (negb _).
    + intros [= <-]. eauto.
    + cbv zeta. destruct (is_artifact _); discriminate.
  - cbv zeta. destruct (is_artifact _); discriminate.
Qed.

Lemma classify_under_prefix env p rest :
  prefix_of env = Some p ->
  classify env ("/" +:+ p +:+ "/" +:+ rest)
  = if is_artifact (Path.basename ("/" +:+ rest))
    then ToCoordinator (Path.basename ("/" +:+ rest))
    else ToStatic ("/" +:+ rest).
Proof.
  intros Hp. unfold classify, mismatch, strip_prefix. rewrite Hp.
  assert (Hs : JsString.startsWith ("/" +:+ p +:+ "/" +:+ rest) ("/" +:+ p +:+ "/") = true).
  { rewrite (startsWith_app "/" (p +:+ "/" +:+ rest) (p +:+ "/")).
    rewrite (startsWith_app p ("/" +:+ rest) "/"). reflexivity. }
  rewrite Hs. cbn [negb]. cbv zeta.
  replace (JsString.slice (String.length p + 1) ("/" +:+ p +:+ "/" +:+ rest))
    with ("/" +:+ rest); [reflexivity|].
  rewrite Nat.add_1_r. change (JsString.slice (S (String.length p)) ("/" +:+ p +:+ "/" +:+ rest))
    with (JsString.slice (String.length p) (p +:+ "/" +:+ rest)).
  now rewrite slice_app.
Qed.

(** X5.  Without a prefix, and also when the prefix is the empty string,
    no request is redirected and nothing is cut off the path: the request
    is routed on the last segment of the path as it came. *)
Theorem no_prefix_no_redirect env url :
  subpackage_of env = None \/ subpackage_of env = Some EmptyString ->
  classify env url
  = if is_artifact (Path.basename url) then ToCoordinator (Path.basename url)
    else ToStatic url.
Proof.
  intros H. apply prefix_none in H. unfold classify, mismatch, strip_prefix.
  now rewrite H.
Qed.

Lemma no_prefix_no_redirect_witness :
  classify {| subpackage_of := Some EmptyString; root := "/repo";
              stat := fun _ => None; access := fun _ => false |} "/other/bundle.js"
  = if is_artifact (Path.basename "/other/bundle.js")
    then ToCoordinator (Path.basename "/other/bundle.js")
    else ToStatic "/other/bundle.js".
Proof.
  apply (no_prefix_no_redirect
           {| subpackage_of := Some EmptyString; root := "/repo";
              stat := fun _ => None; access := fun _ => false |} "/other/bundle.js").
  right. reflexivity.
Defined.

(** X6.  The location a request is redirected to is not redirected again:
    it is served as the static path [/umalator-global/]. *)
Theorem redirect_target_is_served env url location :
  classify env url = ToRedirect location ->
  classify env location = ToStatic "/umalator-global/".
Proof.
  intros H. apply classify_redirect_inv in H as (p & Hp & ->).
  change ("/" +:+ p +:+ "/" +:+ THIS_PACKAGE +:+ "/")
    with ("/" +:+ p +:+ "/" +:+ "umalator-global/").
  rewrite (classify_under_prefix env p "umalator-global/" Hp). reflexivity.
Qed.

Lemma redirect_target_is_served_witness :
  classify example_env "/uma-tools/umalator-global/" = ToStatic "/umalator-global/".
Proof.
  apply (redirect_target_is_served example_env "/other/index.html"
           "/uma-tools/umalator-global/").
  reflexivity.
Defined.

(** X7.  Under the prefix, a path is routed to the coordinator on its last
    segment alone: whatever directories come before it, a request whose last
    segment is an artifact name is a request for that artifact. *)
Theorem artifact_in_any_directory env p dir f :
  prefix_of env = Some p ->
  is_artifact f = true ->
  classify env ("/" +:+ p +:+ "/" +:+ dir +:+ "/" +:+ f) = ToCoordinator f
  /\ classify env ("/" +:+ p +:+ "/" +:+ f) = ToCoordinator f.
Proof.
  intros Hp Hf. destruct (artifact_is_segment f Hf) as [Hne Hns].
  split.
  - rewrite (classify_under_prefix env p (dir +:+ "/" +:+ f) Hp).
    change ("/" +:+ dir +:+ "/" +:+ f) with (("/" +:+ dir) +:+ "/" +:+ f).
    rewrite (basename_last ("/" +:+ dir) f Hne Hns). now rewrite Hf.
  - rewrite (classify_under_prefix env p f Hp).
    change ("/" +:+ f) with ("" +:+ "/" +:+ f).
    rewrite (basename_last "" f Hne Hns). now rewrite Hf.
Qed.

Lemma artifact_in_any_directory_witness :
  classify example_env ("/" +:+ "uma-tools" +:+ "/" +:+ "no/such/dir" +:+ "/" +:+ "bundle.css")
  = ToCoordinator "bundle.css"
  /\ classify example_env ("/" +:+ "uma-tools" +:+ "/" +:+ "bundle.css")
     = ToCoordinator "bundle.css".
Proof.
  apply (artifact_in_any_directory example_env "uma-tools" "no/such/dir" "bundle.css");
    reflexivity.
Defined.

(** ** [path.join(fp, 'index.html')] *)

Lemma segments_go_app (a b cur : string) :
  Path.segments_go (a +:+ String Path.slash b) cur
  = Path.segments_go a cur ++ Path.segments_go b EmptyString.
Proof.
  revert cur; induction a as [|c a IH]; intros cur.
  - change (Path.segments_go (String Path.slash b) cur
            = [cur] ++ Path.segments_go b EmptyString).
    cbn [Path.segments_go]. now rewrite Ascii.eqb_refl.
  - change (Path.segments_go (String c (a +:+ String Path.slash b)) cur
            = Path.segments_go (String c a) cur ++ Path.segments_go b EmptyString).
    cbn [Path.segments_go]. destruct (Ascii.eqb c Path.slash).
    + now rewrite IH.
    + apply IH.
Qed.

Lemma normalize_segments_last allow x :
  String.eqb x "" = false -> String.eqb x "." = false -> String.eqb x ".." = false ->
  forall l acc, exists m, Path.normalize_segments allow (l ++ [x]) acc = m ++ [x].
Proof.
  intros H1 H2 H3. induction l as [|seg l IH]; intros acc.
  - exists (rev acc). simpl. now rewrite H1, H2, H3.
  - cbn [app Path.normalize_segments].
    destruct (String.eqb seg "" || String.eqb seg ".")%bool; [apply IH|].
    destruct (String.eqb seg ".."); [|apply IH].
    destruct acc as [|last acc'].
    + destruct allow; apply IH.
    + destruct (String.eqb last ".."); apply IH.
Qed.

Lemma concat_with_last (m : list string) (x : string) :
  Path.concat_with "/" (m ++ [x]) = x
  \/ exists y, Path.concat_with "/" (m ++ [x]) = y +:+ "/" +:+ x.
Proof.
  induction m as [|a m IH]; [now left|]. right.
  assert (Hcons : Path.concat_with "/" ((a :: m) ++ [x])
                  = a +:+ "/" +:+ Path.concat_with "/" (m ++ [x])).
  { cbn [app Path.concat_with]. destruct (m ++ [x]) eqn:E; [|reflexivity].
    destruct m; discriminate. }
  rewrite Hcons. destruct IH as [->|[y ->]].
  - now exists a.
  - exists (a +:+ "/" +:+ y). now rewrite !PluginsFacts.append_assoc.
Qed.

Lemma ends_with_slash_app (a : string) (c : ascii) (b : string) :
  Path.ends_with_slash (a +:+ String c b) = Path.ends_with_slash (String c b).
Proof.
  induction a as [|d a IH]; [reflexivity|].
  change (Path.ends_with_slash (String d (a +:+ String c b))
          = Path.ends_with_slash (String c b)).
  destruct (a +:+ String c b) eqn:E; [destruct a; discriminate|].
  exact IH.
Qed.

Lemma normalize_cons (c : ascii) (r : string) :
  Path.normalize (String c r)
  = match Path.concat_with "/"
            (Path.normalize_segments (negb (Ascii.eqb c Path.slash))
               (Path.segments (String c r)) []) with
    | EmptyString =>
        if Ascii.eqb c Path.slash then "/"
        else if Path.ends_with_slash (String c r) then "./" else "."
    | String _ _ as body =>
        if Ascii.eqb c Path.slash
        then "/" +:+ (if Path.ends_with_slash (String c r) then body +:+ "/" else body)
        else if Path.ends_with_slash (String c r) then body +:+ "/" else body
    end.
Proof. unfold Path.normalize. cbv zeta. destruct (Path.concat_with _ _); reflexivity. Qed.

Lemma join_index (fp : string) :
  Path.join [fp; "index.html"] = "index.html"
  \/ exists z, Path.join [fp; "index.html"] = z +:+ "/" +:+ "index.html".
Proof.
  destruct fp as [|c fp]; [now left|].
  assert (Hj : Path.join [String c fp; "index.html"]
               = Path.normalize (String c (fp +:+ String Path.slash "index.html")))
    by reflexivity.
  rewrite Hj, normalize_cons.
  assert (Hend : Path.ends_with_slash (String c (fp +:+ String Path.slash "index.html"))
                 = false).
  { change (String c (fp +:+ String Path.slash "index.html"))
      with (String c fp +:+ String Path.slash "index.html").
    now rewrite ends_with_slash_app. }
  rewrite Hend.
  assert (Hseg : Path.segments (String c (fp +:+ String Path.slash "index.html"))
                 = Path.segments (String c fp) ++ ["index.html"]).
  { unfold Path.segments.
    change (String c (fp +:+ String Path.slash "index.html"))
      with (String c fp +:+ String Path.slash "index.html").
    now rewrite segments_go_app. }
  rewrite Hseg.
  destruct (normalize_segments_last (negb (Ascii.eqb c Path.slash)) "index.html"
              eq_refl eq_refl eq_refl (Path.segments (String c fp)) []) as [m ->].
  destruct (concat_with_last m "index.html") as [->|[y ->]].
  - cbv iota. destruct (Ascii.eqb c Path.slash).
    + right. now exists "".
    + now left.
  - destruct (y +:+ "/" +:+ "index.html") eqn:E; [destruct y; discriminate|].
    rewrite <- E. destruct (Ascii.eqb c Path.slash).
    + right. exists ("/" +:+ y). reflexivity.
    + right. now exists y.
Qed.

Lemma extname_index (fp : string) :
  Path.extname (Path.join [fp; "index.html"]) = ".html".
Proof.
  assert (Hb : Path.basename (Path.join [fp; "index.html"]) = "index.html").
  { destruct (join_index fp) as [->|[z ->]]; [reflexivity|].
    now apply basename_last. }
  unfold Path.extname. rewrite Hb. reflexivity.
Qed.

(** X8.  A static request for a directory: when an [index.html] exists in
    it ([fs.promises.access] succeeds), the head 200 with [Content-type]
    [text/html; charset=UTF-8] is written and that file is piped into the
    response; when none exists, the answer is 404. *)
Theorem directory_serves_index env url :
  stat env (Path.join [root env; url]) = Some true ->
  (access env (Path.join [Path.join [root env; url]; "index.html"]) = true ->
   serve_static env url
   = StaticOK "text/html; charset=UTF-8"
       (Path.join [Path.join [root env; url]; "index.html"]))
  /\ (access env (Path.join [Path.join [root env; url]; "index.html"]) = false ->
      serve_static env url = NotFound).
Proof.
  intros Hdir. unfold serve_static. cbv zeta. rewrite Hdir.
  split; intros Ha; rewrite Ha; [|reflexivity].
  now rewrite extname_index.
Qed.

Lemma directory_serves_index_witness :
  serve_static
    {| subpackage_of := Some "uma-tools"; root := "/repo";
       stat := fun p => if String.eqb p "/repo/umalator-global/" then Some true else None;
       access := fun p => String.eqb p "/repo/umalator-global/index.html" |}
    "/umalator-global/"
  = StaticOK "text/html; charset=UTF-8" "/repo/umalator-global/index.html".
Proof.
  apply (directory_serves_index
           {| subpackage_of := Some "uma-tools"; root := "/repo";
              stat := fun p => if String.eqb p "/repo/umalator-global/" then Some true
                               else None;
              access := fun p => String.eqb p "/repo/umalator-global/index.html" |}
           "/umalator-global/"); reflexivity.
Defined.

End RoutingFacts.

(** * Further properties of the rebuild coordinator *)

Module CoordinatorFacts.

Import Server Traces.

(** ** One event *)

Lemma request_step env st url f :
  classify env url = ToCoordinator f ->
  step env st (Request url) = artifact_request st f.
Proof. intros H. simpl. now rewrite H. Qed.

Lemma classify_coordinator env url f :
  classify env url = ToCoordinator f -> is_artifact f = true.
Proof.
  unfold classify. destruct (mismatch env url); [discriminate|]. cbv zeta.
  destruct (is_artifact _) eqn:E; [|discriminate]. now intros [= <-].
Qed.

Lemma other_step_coord env st e :
  (forall url f, e = Request url -> classify env url <> ToCoordinator f) ->
  coord (step env st e) = coord st.
Proof.
  intros H. destruct e as [url|h outputFiles|h]; simpl.
  - destruct (classify env url) as [loc|f|url'] eqn:Hc; [reflexivity| |reflexivity].
    now elim (H url f eq_refl).
  - destruct (promises st !! h) as [[| |]|]; reflexivity.
  - destruct (promises st !! h) as [[| |]|]; reflexivity.
Qed.

Lemma get_insert (m : gmap string nat) (f g : string) (n : nat) :
  get (<[f := n]> m) g = if String.eqb f g then n else get m g.
Proof.
  unfold get. destruct (String.eqb_spec f g) as [->|Hne].
  - now rewrite lookup_insert_eq.
  - now rewrite lookup_insert_ne.
Qed.

Lemma get_init f : get init_requestCount f = 0.
Proof.
  unfold init_requestCount.
  assert (H : forall l (m : gmap string nat),
             (forall g, get m g = 0) ->
             forall g, get (foldl (fun m f => <[f := 0]> m) m l) g = 0).
  { induction l as [|a l IH]; intros m Hm g; simpl; [apply Hm|].
    apply IH. intros g'. rewrite get_insert. destruct (String.eqb a g'); [reflexivity | apply Hm]. }
  apply H. intros g. reflexivity.
Qed.

Lemma requests_for_snoc env f evs e :
  requests_for env f (evs ++ [e])
  = requests_for env f evs + (if is_request_for env f e then 1 else 0).
Proof.
  unfold requests_for. rewrite List.filter_app, length_app. simpl.
  destruct (is_request_for env f e); reflexivity.
Qed.

(** X9.  The request counters count: after any run, the counter of an
    artifact other than the worker script is the number of requests received
    for it, the counter of the worker script is half the number of requests
    for it, rounded up, and [workerState] is their parity. *)
Theorem counters_count_requests env evs :
  (forall f, f <> WORKER ->
     get (requestCount (coord (run env init evs))) f = requests_for env f evs)
  /\ get (requestCount (coord (run env init evs))) WORKER
     = (requests_for env WORKER evs + 1) / 2
  /\ workerState (coord (run env init evs)) = requests_for env WORKER evs mod 2.
Proof.
  assert (Q : (forall f, f <> WORKER ->
                 get (requestCount (coord (run env init evs))) f = requests_for env f evs)
              /\ exists m,
                   (requests_for env WORKER evs = 2 * m
                    /\ workerState (coord (run env init evs)) = 0
                    /\ get (requestCount (coord (run env init evs))) WORKER = m)
                   \/ (requests_for env WORKER evs = 2 * m + 1
                       /\ workerState (coord (run env init evs)) = 1
                       /\ get (requestCount (coord (run env init evs))) WORKER = m + 1)).
  { induction evs as [|e evs IH] using rev_ind.
    - split; [intros f _; apply get_init|]. exists 0. left.
      split; [reflexivity|]. split; [reflexivity | apply get_init].
    - destruct IH as [IHf IHw]. rewrite ServerFacts.run_snoc.
      set (st := run env init evs) in *.
      destruct e as [url|h outputFiles|h].
      + destruct (classify env url) as [loc|g|url'] eqn:Hc.
        * assert (Hco : coord (step env st (Request url)) = coord st)
            by (simpl; now rewrite Hc).
          rewrite Hco. split.
          -- intros f Hf. rewrite requests_for_snoc. cbn. rewrite Hc.
             rewrite Nat.add_0_r. now apply IHf.
          -- rewrite requests_for_snoc. cbn. rewrite Hc. rewrite Nat.add_0_r. exact IHw.
        * rewrite (request_step env st url g Hc), ServerFacts.artifact_request_coord.
          rewrite ServerFacts.demand_requestCount, ServerFacts.demand_workerState.
          split.
          -- intros f Hf. rewrite requests_for_snoc, get_insert. cbn. rewrite Hc.
             destruct (String.eqb_spec g f) as [->|Hne].
             ++ unfold requestN. apply String.eqb_neq in Hf. rewrite Hf.
                apply String.eqb_neq in Hf. rewrite (IHf f Hf). reflexivity.
             ++ rewrite Nat.add_0_r. now apply IHf.
          -- rewrite requests_for_snoc, get_insert. cbn. rewrite Hc.
             destruct (String.eqb_spec g WORKER) as [->|Hne].
             ++ unfold requestN. rewrite String.eqb_refl.
                destruct IHw as [m [(Hk & Hw & Hr)|(Hk & Hw & Hr)]];
                  rewrite Hk, Hw, Hr.
                ** exists m. right. change (toggle 0) with 1. repeat split; lia.
                ** exists (m + 1). left. change (toggle 1) with 0. repeat split; lia.
             ++ rewrite Nat.add_0_r. exact IHw.
        * assert (Hco : coord (step env st (Request url)) = coord st)
            by (simpl; now rewrite Hc).
          rewrite Hco. split.
          -- intros f Hf. rewrite requests_for_snoc. cbn. rewrite Hc.
             rewrite Nat.add_0_r. now apply IHf.
          -- rewrite requests_for_snoc. cbn. rewrite Hc. rewrite Nat.add_0_r. exact IHw.
      + rewrite other_step_coord by discriminate. split.
        * intros f Hf. rewrite requests_for_snoc. cbn. rewrite Nat.add_0_r. now apply IHf.
        * rewrite requests_for_snoc. cbn. rewrite Nat.add_0_r. exact IHw.
      + rewrite other_step_coord by discriminate. split.
        * intros f Hf. rewrite requests_for_snoc. cbn. rewrite Nat.add_0_r. now apply IHf.
        * rewrite requests_for_snoc. cbn. rewrite Nat.add_0_r. exact IHw. }
  destruct Q as [Qf [m [(Hk & Hw & Hr)|(Hk & Hw & Hr)]]]; split; try exact Qf;
    rewrite Hk, Hw, Hr; split.
  - apply (Nat.div_unique (2 * m + 1) 2 m 1); lia.
  - apply (Nat.mod_unique (2 * m) 2 m 0); lia.
  - apply (Nat.div_unique (2 * m + 1 + 1) 2 (m + 1) 0); lia.
  - apply (Nat.mod_unique (2 * m + 1) 2 m 1); lia.
Qed.

Lemma counters_count_requests_witness :
  get (requestCount (coord (run example_env init [get_js; get_worker; get_js; get_worker])))
    "bundle.js"
  = requests_for example_env "bundle.js" [get_js; get_worker; get_js; get_worker].
Proof.
  destruct (counters_count_requests example_env [get_js; get_worker; get_js; get_worker])
    as [H _].
  apply H. discriminate.
Defined.

(** ** Nothing is ever reset *)

Lemma step_never_resets env st e :
  buildCount (coord st) <= buildCount (coord (step env st e))
  /\ (forall f, get (requestCount (coord st)) f
                <= get (requestCount (coord (step env st e))) f)
  /\ (output (coord st) <> None -> output (coord (step env st e)) <> None).
Proof.
  destruct e as [url|h outputFiles|h].
  - destruct (classify env url) as [loc|g|url'] eqn:Hc.
    + rewrite other_step_coord by (intros ? ? [= <-]; congruence). auto.
    + rewrite (request_step env st url g Hc), ServerFacts.artifact_request_coord.
      rewrite ServerFacts.demand_buildCount, ServerFacts.demand_requestCount,
        ServerFacts.demand_output.
      split; [lia|]. split.
      * intros f. rewrite get_insert. destruct (String.eqb_spec g f) as [->|_]; [|lia].
        unfold requestN. lia.
      * destruct (triggers _ _); [discriminate | auto].
    + rewrite other_step_coord by (intros ? ? [= <-]; congruence). auto.
  - rewrite other_step_coord by discriminate. auto.
  - rewrite other_step_coord by discriminate. auto.
Qed.

(** X10.  Nothing is reset while the server runs: along any sequence of
    events, from any state, [buildCount] and every request counter never
    decrease, and [output], once it refers to a promise, is never [null]
    again. *)
Theorem counters_never_reset env st evs :
  buildCount (coord st) <= buildCount (coord (run env st evs))
  /\ (forall f, get (requestCount (coord st)) f
                <= get (requestCount (coord (run env st evs))) f)
  /\ (output (coord st) <> None -> output (coord (run env st evs)) <> None).
Proof.
  revert st. induction evs as [|e evs IH]; intros st; simpl; [auto|].
  destruct (step_never_resets env st e) as (Hb & Hr & Ho).
  destruct (IH (step env st e)) as (Hb' & Hr' & Ho').
  split; [lia|]. split; [|auto].
  intros f. specialize (Hr f). specialize (Hr' f). lia.
Qed.

Lemma counters_never_reset_witness :
  output (coord (run example_env (run example_env init [get_js])
                   [RebuildRejected 0; Request "/favicon.ico"; get_css])) <> None.
Proof.
  destruct (counters_never_reset example_env (run example_env init [get_js])
              [RebuildRejected 0; Request "/favicon.ico"; get_css]) as (_ & _ & H).
  apply H. discriminate.
Defined.

(** ** Every request is accounted for *)

Lemma filter_split_perm {A} (p : A -> bool) (l : list A) :
  Permutation (List.filter (fun x => negb (p x)) l ++ List.filter p l) l.
Proof.
  induction l as [|a l IH]; simpl; [constructor|].
  destruct (p a); simpl.
  - apply Permutation_sym, Permutation_cons_app, Permutation_sym, IH.
  - now constructor.
Qed.

Lemma ids_after_response (ws rs : list nat) (n : nat) :
  Permutation (ws ++ rs) (seq 0 n) ->
  Permutation (ws ++ rs ++ [n]) (seq 0 (S n)).
Proof.
  intros H. rewrite seq_S, app_assoc. simpl. now apply Permutation_app_tail.
Qed.

Lemma ids_after_suspension (ws rs : list nat) (n : nat) :
  Permutation (ws ++ rs) (seq 0 n) ->
  Permutation ((ws ++ [n]) ++ rs) (seq 0 (S n)).
Proof.
  intros H. rewrite seq_S. simpl. rewrite <- app_assoc.
  transitivity (ws ++ rs ++ [n]).
  - apply Permutation_app_head, Permutation_app_comm.
  - rewrite app_assoc. now apply Permutation_app_tail.
Qed.

Lemma ids_step env st e :
  Permutation (request_ids st) (seq 0 (requests st)) ->
  Permutation (request_ids (step env st e)) (seq 0 (requests (step env st e))).
Proof.
  unfold request_ids. intros H. destruct e as [url|h outputFiles|h].
  - simpl. destruct (classify env url) as [loc|f|url'].
    + simpl. rewrite map_app. simpl. now apply ids_after_response.
    + rewrite ServerFacts.artifact_request_requests.
      destruct (ServerFacts.artifact_request_outcome st f)
        as [k files _ _ Hw Hr | k _ _ Hw Hr | _ Hw Hr]; rewrite Hw, Hr.
      * rewrite map_app. simpl. now apply ids_after_response.
      * rewrite map_app. simpl. now apply ids_after_suspension.
      * rewrite map_app. simpl. now apply ids_after_response.
    + simpl. rewrite map_app. simpl. now apply ids_after_response.
  - simpl. destruct (promises st !! h) as [[| |]|]; try exact H. simpl.
    rewrite map_app, map_map. simpl.
    change (map (fun w => w_req w) (List.filter (waits_on h) (waiting st)))
      with (map w_req (List.filter (waits_on h) (waiting st))).
    etransitivity; [|exact H].
    transitivity ((map w_req (List.filter (fun w => negb (waits_on h w)) (waiting st))
                   ++ map w_req (List.filter (waits_on h) (waiting st)))
                  ++ map s_req (responses st)).
    + rewrite <- app_assoc. apply Permutation_app_head, Permutation_app_comm.
    + apply Permutation_app_tail. rewrite <- map_app.
      apply Permutation_map, filter_split_perm.
  - simpl. destruct (promises st !! h) as [[| |]|]; exact H.
Qed.

Lemma requests_step env st e :
  requests (step env st e) = requests st + (if is_request e then 1 else 0).
Proof.
  destruct e as [url|h outputFiles|h]; simpl.
  - destruct (classify env url); [simpl; lia | | simpl; lia].
    rewrite ServerFacts.artifact_request_requests. lia.
  - destruct (promises st !! h) as [[| |]|]; simpl; lia.
  - destruct (promises st !! h) as [[| |]|]; simpl; lia.
Qed.

(** The request numbers of a state are the numbers 0 .. n-1 of the n
    requests received, each once. *)
Lemma request_ids_permutation env evs :
  requests (run env init evs) = count_requests evs
  /\ Permutation (request_ids (run env init evs)) (seq 0 (count_requests evs)).
Proof.
  assert (H : forall st,
             requests (run env st evs) = requests st + count_requests evs
             /\ (Permutation (request_ids st) (seq 0 (requests st)) ->
                 Permutation (request_ids (run env st evs))
                   (seq 0 (requests (run env st evs))))).
  { induction evs as [|e evs IH]; intros st.
    - unfold count_requests. simpl. split; [lia | auto].
    - destruct (IH (step env st e)) as [Hn Hp].
      change (run env st (e :: evs)) with (run env (step env st e) evs).
      split.
      + rewrite Hn, requests_step. unfold count_requests. simpl.
        destruct (is_request e); simpl; lia.
      + intros H0. apply Hp. now apply ids_step. }
  destruct (H init) as [Hn Hp]. simpl in Hn. split; [exact Hn|].
  rewrite <- Hn. apply Hp. constructor.
Qed.

(** ** [await output] *)

Lemma request_output_some st f :
  invariant st -> exists h, output (coord (artifact_request st f)) = Some h.
Proof.
  intros Hinv. rewrite ServerFacts.artifact_request_coord, ServerFacts.demand_output.
  destruct (triggers (coord st) f) eqn:Ht; [eauto|].
  destruct (output (coord st)) as [h|] eqn:Ho; [eauto|]. exfalso.
  rewrite (inv_output _ Hinv) in Ho. pose proof (inv_count _ Hinv) as Hcount.
  destruct (promises st) as [|p ps]; [|discriminate Ho]. simpl in Hcount.
  unfold triggers in Ht. apply negb_false_iff, Nat.eqb_eq in Ht.
  rewrite Hcount in Ht. unfold requestN in Ht.
  destruct (String.eqb f WORKER) eqn:Hf; [|lia].
  apply String.eqb_eq in Hf. subst f.
  destruct (inv_worker _ Hinv) as [H0|[H1 Hge]].
  - rewrite H0 in Ht. change (toggle 0) with 1 in Ht. lia.
  - lia.
Qed.

Lemma serve_static_responds env url : serve_static env url <> HandlerThrew.
Proof. unfold serve_static. cbv zeta. destruct (access env _); discriminate. Qed.

(** X12.  The handler never awaits [null]: in any run, after a request for
    an artifact [output] refers to a promise, so that no request fails for
    want of one; a request can only fail on an output that the finished
    build does not contain. *)
Theorem never_awaits_null env evs :
  (forall url f,
     classify env url = ToCoordinator f ->
     exists h, output (coord (step env (run env init evs) (Request url))) = Some h)
  /\ (forall r, In r (responses (run env init evs)) ->
                s_resp r = HandlerThrew ->
                exists h files,
                  s_from r = Some h
                  /\ promises (run env init evs) !! h = Some (Fulfilled files)
                  /\ files !! s_file r = None).
Proof.
  split.
  - intros url f Hc. rewrite (request_step env _ url f Hc).
    apply request_output_some, ServerFacts.run_invariant.
  - assert (Hnull : forall r, In r (responses (run env init evs)) ->
                              s_from r = None -> s_resp r <> HandlerThrew).
    { induction evs as [|e evs IH] using rev_ind; [intros r []|].
      rewrite ServerFacts.run_snoc.
      pose proof (ServerFacts.run_invariant env evs) as Hinv.
      set (st := run env init evs) in *.
      intros r Hin Hfrom. destruct e as [url|h outputFiles|h].
      - simpl in Hin. destruct (classify env url) as [loc|f|url'].
        + simpl in Hin. apply in_app_iff in Hin as [Hin|[<-|[]]]; [now apply IH | discriminate].
        + destruct (ServerFacts.artifact_request_outcome st f)
            as [k files _ _ _ Hr | k _ _ _ Hr | Hk _ _].
          * rewrite Hr in Hin. apply in_app_iff in Hin as [Hin|[<-|[]]];
              [now apply IH | discriminate Hfrom].
          * rewrite Hr in Hin. now apply IH.
          * destruct (request_output_some st f Hinv) as [k Hk']. congruence.
        + simpl in Hin. apply in_app_iff in Hin as [Hin|[<-|[]]]; [now apply IH|].
          apply serve_static_responds.
      - simpl in Hin. destruct (promises st !! h) as [[| |]|]; try (now apply IH).
        simpl in Hin. apply in_app_iff in Hin as [Hin|Hin]; [now apply IH|].
        apply in_map_iff in Hin as (w & <- & _). discriminate Hfrom.
      - simpl in Hin. destruct (promises st !! h) as [[| |]|]; now apply IH. }
    intros r Hin Hthrew.
    destruct (s_from r) as [h|] eqn:Hfrom; [|now elim (Hnull r Hin Hfrom)].
    destruct (inv_served _ (ServerFacts.run_invariant env evs) r h Hin Hfrom)
      as (files & Hp & Hresp).
    exists h, files. repeat conj_split; [reflexivity | exact Hp |].
    rewrite Hthrew in Hresp. unfold artifact_response in Hresp.
    destruct (files !! s_file r); [discriminate | reflexivity].
Qed.

Lemma never_awaits_null_witness :
  exists h, output (coord (step example_env (run example_env init []) get_worker)) = Some h.
Proof.
  destruct (never_awaits_null example_env []) as [H _].
  exact (H "/uma-tools/umalator-global/simulator.worker.js" WORKER eq_refl).
Defined.

(** ** Page loads *)

Lemma lookup_get (m : gmap string nat) f k : m !! f = Some k -> get m f = k.
Proof. unfold get. now intros ->. Qed.

Lemma page_load_in_step env js css worker st k :
  classify env js = ToCoordinator "bundle.js" ->
  classify env css = ToCoordinator "bundle.css" ->
  classify env worker = ToCoordinator WORKER ->
  in_step (coord st) k ->
  in_step (coord (run env st (page_load js css worker))) (k + 1)
  /\ rebuild_calls (run env st (page_load js css worker)) = rebuild_calls st + 1.
Proof.
  intros Hjs Hcss Hw (H1 & H2 & H3 & H4 & H5).
  unfold page_load. cbn [run foldl].
  rewrite (request_step env st js _ Hjs).
  set (s1 := artifact_request st "bundle.js").
  rewrite (request_step env s1 css _ Hcss).
  set (s2 := artifact_request s1 "bundle.css").
  rewrite (request_step env s2 worker _ Hw).
  set (s3 := artifact_request s2 WORKER).
  rewrite (request_step env s3 worker _ Hw).
  set (s4 := artifact_request s3 WORKER).
  (* the bundle: its counter passes [buildCount], a rebuild starts *)
  assert (N1 : requestN (coord st) "bundle.js" = k + 1)
    by (unfold requestN; now rewrite (lookup_get _ _ _ H1)).
  assert (T1 : triggers (coord st) "bundle.js" = true)
    by (unfold triggers; rewrite N1, H4; apply negb_true_iff, Nat.eqb_neq; lia).
  assert (C1 : coord s1 = demand (coord st) "bundle.js" (length (promises st)))
    by apply ServerFacts.artifact_request_coord.
  assert (R1 : requestCount (coord s1) = <["bundle.js" := k + 1]> (requestCount (coord st)))
    by (rewrite C1, ServerFacts.demand_requestCount; now rewrite N1).
  assert (B1 : buildCount (coord s1) = k + 1)
    by (rewrite C1, ServerFacts.demand_buildCount, T1; lia).
  assert (W1 : workerState (coord s1) = 0)
    by (rewrite C1, ServerFacts.demand_workerState; exact H5).
  (* the stylesheet: its counter reaches [buildCount] *)
  assert (N2 : requestN (coord s1) "bundle.css" = k + 1).
  { unfold requestN. rewrite R1, get_insert. simpl. now rewrite (lookup_get _ _ _ H2). }
  assert (T2 : triggers (coord s1) "bundle.css" = false)
    by (unfold triggers; rewrite N2, B1; apply negb_false_iff, Nat.eqb_refl).
  assert (C2 : coord s2 = demand (coord s1) "bundle.css" (length (promises s1)))
    by apply ServerFacts.artifact_request_coord.
  assert (R2 : requestCount (coord s2) = <["bundle.css" := k + 1]> (requestCount (coord s1)))
    by (rewrite C2, ServerFacts.demand_requestCount; now rewrite N2).
  assert (B2 : buildCount (coord s2) = k + 1)
    by (rewrite C2, ServerFacts.demand_buildCount, T2; lia).
  assert (W2 : workerState (coord s2) = 0)
    by (rewrite C2, ServerFacts.demand_workerState; exact W1).
  (* the worker script, first request *)
  assert (N3 : requestN (coord s2) WORKER = k + 1).
  { unfold requestN. rewrite R2, R1, !get_insert, W2. simpl.
    change (toggle 0) with 1. now rewrite (lookup_get _ _ _ H3). }
  assert (T3 : triggers (coord s2) WORKER = false)
    by (unfold triggers; rewrite N3, B2; apply negb_false_iff, Nat.eqb_refl).
  assert (C3 : coord s3 = demand (coord s2) WORKER (length (promises s2)))
    by apply ServerFacts.artifact_request_coord.
  assert (R3 : requestCount (coord s3) = <[WORKER := k + 1]> (requestCount (coord s2)))
    by (rewrite C3, ServerFacts.demand_requestCount; now rewrite N3).
  assert (B3 : buildCount (coord s3) = k + 1)
    by (rewrite C3, ServerFacts.demand_buildCount, T3; lia).
  assert (W3 : workerState (coord s3) = 1)
    by (rewrite C3, ServerFacts.demand_workerState, W2; reflexivity).
  (* the worker script, second request *)
  assert (N4 : requestN (coord s3) WORKER = k + 1).
  { unfold requestN. rewrite R3, get_insert, W3. simpl.
    change (toggle 1) with 0. lia. }
  assert (T4 : triggers (coord s3) WORKER = false)
    by (unfold triggers; rewrite N4, B3; apply negb_false_iff, Nat.eqb_refl).
  assert (C4 : coord s4 = demand (coord s3) WORKER (length (promises s3)))
    by apply ServerFacts.artifact_request_coord.
  assert (R4 : requestCount (coord s4) = <[WORKER := k + 1]> (requestCount (coord s3)))
    by (rewrite C4, ServerFacts.demand_requestCount; now rewrite N4).
  assert (B4 : buildCount (coord s4) = k + 1)
    by (rewrite C4, ServerFacts.demand_buildCount, T4; lia).
  assert (W4 : workerState (coord s4) = 0)
    by (rewrite C4, ServerFacts.demand_workerState, W3; reflexivity).
  split.
  - unfold in_step. rewrite R4, R3, R2, R1, B4, W4.
    repeat conj_split; try reflexivity.
    + rewrite !lookup_insert_ne by discriminate. apply lookup_insert_eq.
    + rewrite !(lookup_insert_ne _ WORKER) by discriminate. apply lookup_insert_eq.
    + apply lookup_insert_eq.
  - unfold s4. rewrite ServerFacts.artifact_request_calls, T4.
    unfold s3. rewrite ServerFacts.artifact_request_calls, T3.
    unfold s2. rewrite ServerFacts.artifact_request_calls, T2.
    unfold s1. rewrite ServerFacts.artifact_request_calls, T1. lia.
Qed.

(** X13.  The counting scheme is built for page loads: a browser that
    fetches the bundle, the stylesheet and the worker script twice, page load
    after page load from server start, causes exactly one rebuild per page
    load, started by the request for the bundle. *)
Theorem one_rebuild_per_page_load env js css worker n :
  classify env js = ToCoordinator "bundle.js" ->
  classify env css = ToCoordinator "bundle.css" ->
  classify env worker = ToCoordinator WORKER ->
  rebuild_calls (run env init (concat (repeat (page_load js css worker) n))) = n
  /\ in_step (coord (run env init (concat (repeat (page_load js css worker) n)))) n.
Proof.
  intros Hjs Hcss Hw.
  assert (H : forall st k,
             in_step (coord st) k ->
             rebuild_calls (run env st (concat (repeat (page_load js css worker) n)))
             = rebuild_calls st + n
             /\ in_step (coord (run env st (concat (repeat (page_load js css worker) n))))
                  (k + n)).
  { induction n as [|n IH]; intros st k Hk.
    - simpl. rewrite !Nat.add_0_r. auto.
    - cbn [repeat concat]. rewrite ServerFacts.run_app.
      destruct (page_load_in_step env js css worker st k Hjs Hcss Hw Hk) as [Hk' Hn].
      destruct (IH _ _ Hk') as [Hcalls Hstep].
      rewrite Hcalls, Hn. split; [lia|].
      replace (k + S n) with (k + 1 + n) by lia. exact Hstep. }
  destruct (H init 0) as [Hcalls Hstep].
  - unfold in_step. repeat conj_split; reflexivity.
  - split; [exact Hcalls | exact Hstep].
Qed.

Lemma one_rebuild_per_page_load_witness :
  rebuild_calls
    (run example_env init
       (concat (repeat (page_load "/uma-tools/umalator-global/bundle.js"
                          "/uma-tools/umalator-global/bundle.css"
                          "/uma-tools/umalator-global/simulator.worker.js") 3))) = 3
  /\ in_step
       (coord (run example_env init
                 (concat (repeat (page_load "/uma-tools/umalator-global/bundle.js"
                                    "/uma-tools/umalator-global/bundle.css"
                                    "/uma-tools/umalator-global/simulator.worker.js") 3))))
       3.
Proof.
  apply (one_rebuild_per_page_load example_env
           "/uma-tools/umalator-global/bundle.js"
           "/uma-tools/umalator-global/bundle.css"
           "/uma-tools/umalator-global/simulator.worker.js" 3); reflexivity.
Defined.

(** ** Fresh and cached output *)

(** X14.  A request that starts a rebuild is never answered from an older
    build: it is suspended on the promise of the rebuild it started, also
    when the previous output is at hand.  A request that starts none, when
    the output [output] refers to is there, is answered at once from it,
    without a rebuild. *)
Theorem fresh_build_or_cached_output env st url f :
  classify env url = ToCoordinator f ->
  (triggers (coord st) f = true ->
     promises (step env st (Request url)) = promises st ++ [InFlight]
     /\ waiting (step env st (Request url))
        = waiting st ++ [{| w_req := requests st; w_file := f;
                            w_on := length (promises st) |}]
     /\ responses (step env st (Request url)) = responses st)
  /\ (forall h files,
        triggers (coord st) f = false ->
        output (coord st) = Some h ->
        promises st !! h = Some (Fulfilled files) ->
        promises (step env st (Request url)) = promises st
        /\ waiting (step env st (Request url)) = waiting st
        /\ responses (step env st (Request url))
           = responses st ++ [{| s_req := requests st; s_file := f; s_from := Some h;
                                 s_resp := artifact_response files f |}]).
Proof.
  intros Hc. rewrite (request_step env st url f Hc). split.
  - intros Ht. unfold artifact_request. cbv zeta.
    rewrite ServerFacts.demand_output, Ht.
    rewrite (list_lookup_middle (promises st) [] InFlight (length (promises st)) eq_refl).
    auto.
  - intros h files Ht Ho Hp. unfold artifact_request. cbv zeta.
    rewrite ServerFacts.demand_output, Ht, Ho, Hp. auto.
Qed.

Lemma fresh_build_or_cached_output_witness :
  promises (step example_env
              (run example_env init [get_js; RebuildResolved 0 [("/out/bundle.js", [Byte.x01])]])
              get_js)
  = promises (run example_env init [get_js; RebuildResolved 0 [("/out/bundle.js", [Byte.x01])]])
    ++ [InFlight]
  /\ waiting (step example_env
                (run example_env init [get_js; RebuildResolved 0 [("/out/bundle.js", [Byte.x01])]])
                get_js)
     = waiting (run example_env init [get_js; RebuildResolved 0 [("/out/bundle.js", [Byte.x01])]])
       ++ [{| w_req := 1; w_file := "bundle.js"; w_on := 1 |}]
  /\ responses (step example_env
                  (run example_env init [get_js; RebuildResolved 0 [("/out/bundle.js", [Byte.x01])]])
                  get_js)
     = responses (run example_env init [get_js; RebuildResolved 0 [("/out/bundle.js", [Byte.x01])]]).
Proof.
  destruct (fresh_build_or_cached_output example_env
              (run example_env init [get_js; RebuildResolved 0 [("/out/bundle.js", [Byte.x01])]])
              "/uma-tools/umalator-global/bundle.js" "bundle.js" eq_refl) as [H _].
  exact (H eq_refl).
Defined.

(** ** What a response carries *)

Lemma output_map_snoc outs o :
  output_map (outs ++ [o]) = <[Path.basename (fst o) := snd o]> (output_map outs).
Proof.
  unfold output_map. generalize (∅ : gmap string (list Byte.byte)).
  induction outs as [|a outs IH]; intros m; simpl; [reflexivity | apply IH].
Qed.

(** X15.  The map of a finished build holds, under each base name, the
    contents of the last output file with that base name; a name that is the
    base name of no output file is not in the map. *)
Theorem output_map_last_wins outs f :
  output_map outs !! f
  = option_map snd (find (fun o => String.eqb (Path.basename (fst o)) f) (rev outs)).
Proof.
  induction outs as [|o outs IH] using rev_ind; [reflexivity|].
  rewrite output_map_snoc, rev_unit. cbn [find].
  destruct (String.eqb_spec (Path.basename (fst o)) f) as [->|Hne].
  - now rewrite lookup_insert_eq.
  - rewrite lookup_insert_ne by exact Hne. exact IH.
Qed.

Lemma waiting_files env evs :
  (forall w, In w (waiting (run env init evs)) -> is_artifact (w_file w) = true)
  /\ (forall r h, In r (responses (run env init evs)) -> s_from r = Some h ->
                  is_artifact (s_file r) = true).
Proof.
  induction evs as [|e evs IH] using rev_ind; [split; [intros w [] | intros r h []]|].
  destruct IH as [IHw IHr]. rewrite ServerFacts.run_snoc.
  set (st := run env init evs) in *. destruct e as [url|h outputFiles|h].
  - simpl. destruct (classify env url) as [loc|f|url'] eqn:Hc.
    + split; [exact IHw|]. intros r h Hin Hf. simpl in Hin.
      apply in_app_iff in Hin as [Hin|[<-|[]]]; [eauto | discriminate].
    + pose proof (classify_coordinator env url f Hc) as Hf.
      destruct (ServerFacts.artifact_request_outcome st f)
        as [k files _ _ Hw Hr | k _ _ Hw Hr | _ Hw Hr]; rewrite Hw, Hr; split;
        try exact IHw; try exact IHr.
      * intros r h Hin Hfrom. apply in_app_iff in Hin as [Hin|[<-|[]]]; [eauto | exact Hf].
      * intros w Hin. apply in_app_iff in Hin as [Hin|[<-|[]]]; [eauto | exact Hf].
      * intros r h Hin Hfrom. apply in_app_iff in Hin as [Hin|[<-|[]]]; [eauto | discriminate].
    + split; [exact IHw|]. intros r h Hin Hf. simpl in Hin.
      apply in_app_iff in Hin as [Hin|[<-|[]]]; [eauto | discriminate].
  - simpl. destruct (promises st !! h) as [[| |]|]; try (split; assumption). simpl. split.
    + intros w Hin. apply filter_In in Hin as [Hin _]. auto.
    + intros r k Hin Hfrom. apply in_app_iff in Hin as [Hin|Hin]; [eauto|].
      apply in_map_iff in Hin as (w & <- & Hw). apply filter_In in Hw as [Hw _].
      simpl. auto.
  - simpl. destruct (promises st !! h) as [[| |]|]; split; assumption.
Qed.

Lemma artifact_mime f :
  is_artifact f = true ->
  In (MIME_TYPES (Path.extname f))
     [Some "text/javascript"; Some "text/css"; Some "application/json"].
Proof.
  intros Hf. apply RoutingFacts.is_artifact_in in Hf.
  unfold artifact_names in Hf. simpl in Hf.
  destruct Hf as [<-|[<-|[<-|[<-|[<-|[<-|[]]]]]]]; vm_compute; tauto.
Qed.

(** X16.  What an answered artifact request carries: in any run, a
    response read from a promise is for an artifact name and that promise is
    fulfilled; when the build's map has the name, the response is a 200 whose
    body is the buffer of the map, whose [Content-length] is the size of that
    buffer and whose [Content-type] is defined ([text/javascript],
    [text/css] or [application/json]); when the map has not, the handler
    raised. *)
Theorem response_carries_build_output env evs r h :
  In r (responses (run env init evs)) ->
  s_from r = Some h ->
  exists files,
    promises (run env init evs) !! h = Some (Fulfilled files)
    /\ is_artifact (s_file r) = true
    /\ match files !! s_file r with
       | Some buf =>
           exists mime,
             In mime ["text/javascript"; "text/css"; "application/json"]
             /\ s_resp r = ArtifactOK (Some mime) (length buf) buf
       | None => s_resp r = HandlerThrew
       end.
Proof.
  intros Hin Hfrom.
  destruct (inv_served _ (ServerFacts.run_invariant env evs) r h Hin Hfrom)
    as (files & Hp & Hresp).
  destruct (waiting_files env evs) as [_ Hfiles].
  pose proof (Hfiles r h Hin Hfrom) as Hart.
  exists files. repeat conj_split; [exact Hp | exact Hart |].
  unfold artifact_response in Hresp. destruct (files !! s_file r) as [buf|]; [|exact Hresp].
  pose proof (artifact_mime _ Hart) as Hm. simpl in Hm.
  destruct Hm as [Hm|[Hm|[Hm|[]]]]; rewrite <- Hm in Hresp;
    eexists; (split; [|exact Hresp]); simpl; tauto.
Qed.

Lemma response_carries_build_output_witness :
  exists files,
    promises (run example_env init
                [get_js; RebuildResolved 0 [("/out/bundle.js", [Byte.x01; Byte.x02])]])
      !! 0%nat = Some (Fulfilled files)
    /\ is_artifact "bundle.js" = true
    /\ match files !! "bundle.js" with
       | Some buf =>
           exists mime,
             In mime ["text/javascript"; "text/css"; "application/json"]
             /\ ArtifactOK (Some "text/javascript") 2 [Byte.x01; Byte.x02]
                = ArtifactOK (Some mime) (length buf) buf
       | None => ArtifactOK (Some "text/javascript") 2 [Byte.x01; Byte.x02] = HandlerThrew
       end.
Proof.
  apply (response_carries_build_output example_env
           [get_js; RebuildResolved 0 [("/out/bundle.js", [Byte.x01; Byte.x02])]]
           {| s_req := 0; s_file := "bundle.js"; s_from := Some 0;
              s_resp := ArtifactOK (Some "text/javascript") 2 [Byte.x01; Byte.x02] |} 0).
  - vm_compute. left. reflexivity.
  - reflexivity.
Defined.

(** ** Artifact requests are accounted for *)

Lemma nodup_filter_tail {A} (f : A -> nat) (p : A -> bool) (ids : list nat) (l : list A) :
  List.NoDup (ids ++ map f l) -> List.NoDup (ids ++ map f (List.filter p l)).
Proof.
  induction ids as [|a ids IH]; simpl; intros H.
  - now apply ServerFacts.NoDup_map_filter.
  - apply List.NoDup_cons_iff in H as [Ha H]. constructor; [|now apply IH].
    intros Hin. apply Ha. apply in_app_iff in Hin as [Hin|Hin]; apply in_app_iff.
    + now left.
    + right. apply in_map_iff in Hin as (x & Hx & Hin).
      apply filter_In in Hin as [Hin _]. apply in_map_iff. eauto.
Qed.

Lemma filter_answers files (ws : list waiter) :
  List.filter from_promise (map (fun w => answer w files) ws)
  = map (fun w => answer w files) ws.
Proof. induction ws as [|w ws IH]; simpl; [reflexivity | now rewrite IH]. Qed.

Lemma artifact_requests_snoc env evs e :
  artifact_requests env (evs ++ [e])
  = artifact_requests env evs + (if is_artifact_request env e then 1 else 0).
Proof.
  unfold artifact_requests. rewrite List.filter_app, length_app. simpl.
  destruct (is_artifact_request env e); reflexivity.
Qed.

Lemma artifact_ids_step env st e :
  invariant st ->
  length (artifact_ids (step env st e))
  = length (artifact_ids st) + (if is_artifact_request env e then 1 else 0).
Proof.
  intros Hinv. unfold artifact_ids. destruct e as [url|h outputFiles|h].
  - unfold is_artifact_request. simpl.
    destruct (classify env url) as [loc|f|url'] eqn:Hc.
    + simpl. rewrite List.filter_app. simpl. rewrite app_nil_r. lia.
    + destruct (ServerFacts.artifact_request_outcome st f)
        as [k files _ _ Hw Hr | k _ _ Hw Hr | Hk _ _].
      * rewrite Hw, Hr, List.filter_app. simpl.
        rewrite !length_app, !length_map, length_app. simpl. lia.
      * rewrite Hw, Hr. rewrite map_app, !length_app. simpl. lia.
      * destruct (request_output_some st f Hinv) as [k Hk']. congruence.
    + simpl. rewrite List.filter_app. simpl. rewrite app_nil_r. lia.
  - simpl. destruct (promises st !! h) as [[| |]|]; try lia. simpl.
    rewrite List.filter_app, filter_answers.
    rewrite !length_app, !length_map, length_app, length_map.
    pose proof (Permutation_length (filter_split_perm (waits_on h) (waiting st))) as Hlen.
    rewrite length_app in Hlen. lia.
  - simpl. destruct (promises st !! h) as [[| |]|]; simpl; lia.
Qed.

(** X11.  Every request for an artifact is accounted for exactly once:
    after any run, the requests suspended at [await output] together with
    those whose handler went past it are as many as the requests for
    artifacts received, and no request number occurs twice among them.  So
    no artifact request is dropped, none goes past [await output] twice, and
    none is both past it and still suspended. *)
Theorem artifact_requests_accounted_once env evs :
  List.NoDup (artifact_ids (run env init evs))
  /\ length (artifact_ids (run env init evs)) = artifact_requests env evs.
Proof.
  split.
  - destruct (request_ids_permutation env evs) as [_ Hperm].
    apply nodup_filter_tail.
    apply (Permutation_NoDup (Permutation_sym Hperm)), seq_NoDup.
  - induction evs as [|e evs IH] using rev_ind; [reflexivity|].
    rewrite ServerFacts.run_snoc, artifact_requests_snoc, <- IH.
    apply artifact_ids_step, ServerFacts.run_invariant.
Qed.

(** ** A counter that has fallen behind *)




End CoordinatorFacts.

(** * Properties of the command line and the build options *)

Module BuildFacts.

Import Build.

(** X17.  The development server always builds for debugging: with
    [--serve] on the command line, with or without [--debug], [debug] is on,
    so the bundle is not minified, its source maps are linked, [CC_DEBUG] is
    [true] and the assertion stub is [console.assert]; nothing is written to
    disk, and the script runs the server on the given port, 8000 when none is
    given. *)
Theorem serve_builds_for_debugging a dirname root port :
  arg_serve a = Some port ->
  opt_debug (parse a) = true
  /\ minify (buildOptions dirname root (parse a)) = false
  /\ sourcemap (buildOptions dirname root (parse a)) = "linked"
  /\ write (buildOptions dirname root (parse a)) = false
  /\ define (buildOptions dirname root (parse a))
     = [("CC_DEBUG", "true"); ("CC_GLOBAL", "true")]
  /\ Plugins.mockAssertFn (opt_debug (parse a)) = "console.assert"
  /\ main (parse a)
     = RunServer (default "8000" port) (default "0.0.0.0" (arg_host a))
         (default "uma-tools" (arg_subpackage_of a)).
Proof.
  intros Hs.
  assert (Hd : opt_debug (parse a) = true).
  { unfold parse. cbn [opt_debug]. rewrite Hs. apply orb_true_r. }
  assert (Hp : opt_serve (parse a) = Some (default "8000" port)).
  { unfold parse. cbn [opt_serve]. rewrite Hs. destruct port; reflexivity. }
  unfold buildOptions, main, serve. cbn [minify sourcemap write define].
  rewrite Hd, Hp. repeat conj_split; reflexivity.
Qed.

Lemma serve_builds_for_debugging_witness :
  opt_debug (parse {| arg_debug := false; arg_serve := Some None;
                      arg_host := None; arg_subpackage_of := None |}) = true
  /\ main (parse {| arg_debug := false; arg_serve := Some None;
                    arg_host := None; arg_subpackage_of := None |})
     = RunServer "8000" "0.0.0.0" "uma-tools".
Proof.
  destruct (serve_builds_for_debugging
              {| arg_debug := false; arg_serve := Some None;
                 arg_host := None; arg_subpackage_of := None |}
              "/repo/umalator-global" "/repo" None eq_refl)
    as (H1 & _ & _ & _ & _ & _ & H7).
  split; [exact H1 | exact H7].
Defined.

End BuildFacts.
